(** * The "Build Docker Image" workflow of eboutique-microservice

    A shallow embedding of the repository's build workflow (the YAML file
    with the jobs [detect-changes] and [build-and-push]) and of the two
    shell scripts it runs, followed by the properties of the selective
    build pipeline that the specification states about them.

    Shell values are modelled as the shell has them: a variable is a
    [string], a bash array a [list string], a command's exit status an
    inductive type.  What the platform decides for the workflow (job
    conditions, matrix expansion, the order of steps, the default of
    [fail-fast]) is written as functions over the workflow's own constants,
    each one next to the line of the workflow it reads. *)

From Stdlib Require Import Ascii String List Bool Arith Lia Permutation.
From stdpp Require Import base option list strings gmap.
Import ListNotations.

Local Open Scope list_scope.

(** ** Strings as the shell sees them *)

Module Sh.

(** The double quote and the newline, written by their codes. *)
Definition dq : ascii := "034"%char.
Definition nl : ascii := "010"%char.
Definition slash : ascii := "/"%char.

Definition DQ : string := String dq "".

(** [starts_with p s]: [p] is a prefix of [s], character by character. *)
Fixpoint starts_with (p s : string) : bool :=
  match p, s with
  | EmptyString, _ => true
  | String a p', String b s' => Ascii.eqb a b && starts_with p' s'
  | String _ _, EmptyString => false
  end.

(** [strip_prefix p s] is the rest of [s] after its prefix [p]. *)
Fixpoint strip_prefix (p s : string) : option string :=
  match p, s with
  | EmptyString, _ => Some s
  | String a p', String b s' =>
      if Ascii.eqb a b then strip_prefix p' s' else None
  | String _ _, EmptyString => None
  end.

(** The lines of a text: the segments between newline characters.  A
    pipe [echo "$v" | ...] feeds the reader exactly these lines, since
    [echo] terminates the text with one more newline.  (A text that
    [echo] takes for an option, such as [-n], is printed as nothing; it
    holds no slash, so it starts with no pattern of the form [dir/]
    either way.) *)
Fixpoint lines_from (cur : string -> string) (s : string) : list string :=
  match s with
  | EmptyString => [cur ""]
  | String c s' =>
      if Ascii.eqb c nl then cur "" :: lines_from (fun r => r) s'
      else lines_from (fun r => cur (String c r)) s'
  end.

Definition lines (s : string) : list string := lines_from (fun r => r) s.

(** A name that fits on one line. *)
Fixpoint no_newline (s : string) : bool :=
  match s with
  | EmptyString => true
  | String c s' => negb (Ascii.eqb c nl) && no_newline s'
  end.

(** ["${arr[*]}"] under [IFS=sep]: the elements joined by [sep]. *)
Fixpoint join (sep : string) (l : list string) : string :=
  match l with
  | [] => ""
  | [x] => x
  | x :: rest => x +:+ sep +:+ join sep rest
  end.

(** The text whose lines are [l]. *)
Definition unlines (l : list string) : string := join (String nl "") l.

(** [${v::n}]: the first [n] characters of [v] (all of it when shorter). *)
Fixpoint take_chars (n : nat) (s : string) : string :=
  match n, s with
  | S n', String c s' => String c (take_chars n' s')
  | _, _ => ""
  end.

(** A pattern is plain when no character of it is special in a basic
    regular expression, so that [grep] reads it literally. *)
Definition bre_special (c : ascii) : bool :=
  existsb (Ascii.eqb c) ["."; "["; "]"; "*"; "\"; "^"; "$"]%char.

Fixpoint bre_plain (s : string) : bool :=
  match s with
  | EmptyString => true
  | String c s' => negb (bre_special c) && bre_plain s'
  end.

(** [grep -q "^pat"] on a text, for a plain [pat]: status 0 (here [true])
    when some line of the text starts with [pat]. *)
Definition grep_q_anchored (pat text : string) : bool :=
  existsb (starts_with pat) (lines text).

(** [basename]: trailing slashes are dropped, then everything up to the
    last remaining slash; a name made of slashes only is ["/"]. *)
Fixpoint drop_trailing_slashes (s : string) : string :=
  match s with
  | EmptyString => ""
  | String c s' =>
      match drop_trailing_slashes s' with
      | EmptyString => if Ascii.eqb c slash then "" else String c ""
      | r => String c r
      end
  end.

Fixpoint last_segment (s : string) : string :=
  match s with
  | EmptyString => ""
  | String c s' =>
      if Ascii.eqb c slash then last_segment s'
      else if existsb (Ascii.eqb slash) (list_ascii_of_string s')
           then last_segment s'
           else s
  end.

(** Letters in lower case, as the workflow's expressions compare
    strings without regard to case. *)
Definition lower_char (c : ascii) : ascii :=
  let n := nat_of_ascii c in
  if Nat.leb 65 n && Nat.leb n 90 then ascii_of_nat (n + 32) else c.

Fixpoint lower (s : string) : string :=
  match s with
  | EmptyString => ""
  | String c s' => String (lower_char c) (lower s')
  end.

(** A value that expands, unquoted, to one word and to itself: not
    empty, no blank and no pattern character. *)
Definition word_char (c : ascii) : bool :=
  negb (existsb (Ascii.eqb c) [" "; "009"; "010"; "*"; "?"; "["]%char).

Fixpoint all_chars (f : ascii -> bool) (s : string) : bool :=
  match s with
  | EmptyString => true
  | String c s' => f c && all_chars f s'
  end.

Definition one_word (s : string) : bool :=
  match s with EmptyString => false | _ => all_chars word_char s end.

(** A path segment: one character at least, and no slash. *)
Fixpoint no_slash (s : string) : bool :=
  match s with
  | EmptyString => true
  | String c s' => negb (Ascii.eqb c slash) && no_slash s'
  end.

Definition segment (s : string) : bool :=
  match s with EmptyString => false | _ => no_slash s end.

Definition basename (s : string) : string :=
  match s with
  | EmptyString => ""
  | _ => match drop_trailing_slashes s with
         | EmptyString => "/"
         | t => last_segment t
         end
  end.

End Sh.

(** ** The workflow's constants *)

Module Workflow.

(** [on.push.paths] (lines 5-18). *)
Definition push_paths : list string :=
  [ "src/frontend/**"; "src/cartservice/**"; "src/checkoutservice/**";
    "src/currencyservice/**"; "src/emailservice/**"; "src/adservice/**";
    "src/loadgenerator/**"; "src/paymentservice/**";
    "src/productcatalogservice/**"; "src/recommendservice/**";
    "src/shippingservice/**"; "src/shoppingassistantservice/**";
    "release/**" ].

(** The word list of the [for dir in ...] loop (line 40): the registry of
    watched service directories, in the order the loop visits them. *)
Definition registry : list string :=
  [ "src/frontend"; "src/cartservice"; "src/checkoutservice";
    "src/currencyservice"; "src/emailservice"; "src/adservice";
    "src/loadgenerator"; "src/paymentservice"; "src/productcatalogservice";
    "src/recommendservice"; "src/shippingservice";
    "src/shoppingassistantservice" ].

(** The literal the job condition compares with (line 57). *)
Definition empty_matrix : string :=
  "{" +:+ Sh.DQ +:+ "include" +:+ Sh.DQ +:+ ":[]}".

(** The cache step's [path] (line 71) and the two cache options of the
    build command (lines 107-108). *)
Definition cache_path : string := "/tmp/.buildx-cache".
Definition cache_from_src : string := "/tmp/.buildx-cache".
Definition cache_to_dest : string := "/tmp/.buildx-cache-new".

(** [runner.os] on [ubuntu-latest] (lines 22 and 58). *)
Definition runner_os : string := "Linux".

End Workflow.

(** ** The specification's wording of two components

    The specification describes the matrix as the registry restricted to
    the matched entries, and descriptor resolution as an ordered list of
    locations of which the first existing one wins. *)

Module Spec.

Definition matched (changed_paths : list string) (entry : string) : bool :=
  existsb (Sh.starts_with (entry +:+ "/")) changed_paths.

Definition build_matrix (registry changed_paths : list string) : list string :=
  List.filter (matched changed_paths) registry.

Record descriptor : Type := {
  dockerfile_path : string;
  context_path : string
}.

Definition candidates (path : string) : list descriptor :=
  [ {| dockerfile_path := path +:+ "/Dockerfile"; context_path := path |};
    {| dockerfile_path := path +:+ "/src/Dockerfile";
       context_path := path +:+ "/src" |} ].

Definition resolve (is_file : string -> bool) (path : string)
  : option descriptor :=
  find (fun d => is_file (dockerfile_path d)) (candidates path).

End Spec.

(** ** The trigger's path filter *)

Module Trigger.

(** A filter pattern is read as literal characters, [*] (any run of
    characters without a slash) and [**] (any run of characters). *)
Inductive glob_tok : Type :=
| GLit (c : ascii)
| GStar
| GStarStar.

Fixpoint glob_lex (p : string) : list glob_tok :=
  match p with
  | EmptyString => []
  | String "*" (String "*" r) => GStarStar :: glob_lex r
  | String "*" r => GStar :: glob_lex r
  | String c r => GLit c :: glob_lex r
  end.

Fixpoint glob_match (ts : list glob_tok) (s : string) {struct ts} : bool :=
  match ts with
  | [] => match s with EmptyString => true | _ => false end
  | GLit c :: ts' =>
      match s with
      | String d s' => Ascii.eqb c d && glob_match ts' s'
      | EmptyString => false
      end
  | GStar :: ts' =>
      (fix star (s : string) : bool :=
         glob_match ts' s ||
         match s with
         | String d s' => negb (Ascii.eqb d Sh.slash) && star s'
         | EmptyString => false
         end) s
  | GStarStar :: ts' =>
      (fix any (s : string) : bool :=
         glob_match ts' s ||
         match s with
         | String _ s' => any s'
         | EmptyString => false
         end) s
  end.

Definition path_matches (pattern path : string) : bool :=
  glob_match (glob_lex pattern) path.

(** The push event starts the workflow when some changed file matches
    some pattern of [on.push.paths]. *)
Definition push_triggers (files : list string) : bool :=
  existsb (fun f => existsb (fun p => path_matches p f) Workflow.push_paths)
          files.

End Trigger.

(** ** Job [detect-changes]: the script of step [set-matrix] *)

Module Detect.

(** The array element appended at line 42 for [dir]. *)
Definition service_json (dir : string) : string :=
  "{" +:+ Sh.DQ +:+ "service" +:+ Sh.DQ +:+ ":" +:+ Sh.DQ +:+ dir +:+ Sh.DQ +:+ "}".

(** Line 41: [echo "$changed" | grep -q "^$dir/"]. *)
Definition dir_changed (changed dir : string) : bool :=
  Sh.grep_q_anchored (dir +:+ "/") changed.

(** One turn of the loop body (lines 41-43) on the array [services]. *)
Definition loop_body (changed : string) (services : list string)
    (dir : string) : list string :=
  if dir_changed changed dir then services ++ [service_json dir]
  else services.

(** Lines 39-44: [services=()] and the loop over the word list. *)
Definition services_over (dirs : list string) (changed : string)
  : list string :=
  fold_left (loop_body changed) dirs [].

Definition services (changed : string) : list string :=
  services_over Workflow.registry changed.

(** Lines 48-52: the matrix text built around the joined array. *)
Definition matrix_of (services : list string) : string :=
  let matrix := "{" +:+ Sh.DQ +:+ "include" +:+ Sh.DQ +:+ ":[" in
  let matrix :=
    if Nat.ltb 0 (length services) then matrix +:+ Sh.join "," services
    else matrix in
  matrix +:+ "]}".

(** The value written to the job output [services] (line 54) when
    [git diff --name-only] printed [changed]. *)
Definition set_matrix (changed : string) : string :=
  matrix_of (services changed).

(** The changed paths the script works on: the names [git diff
    --name-only] printed, one per line. *)
Definition changed_paths (changed : string) : list string :=
  Sh.lines changed.

End Detect.

(** ** [fromJson]: reading the matrix text back *)

Module Json.

(** The characters of a JSON string up to its closing quote; escapes are
    not read (a backslash is refused). *)
Fixpoint read_string (s : string) : option (string * string) :=
  match s with
  | EmptyString => None
  | String c s' =>
      if Ascii.eqb c Sh.dq then Some ("", s')
      else if Ascii.eqb c "\"%char then None
      else match read_string s' with
           | Some (v, r) => Some (String c v, r)
           | None => None
           end
  end.

(** A text that [read_string] reads whole: no quote, no backslash. *)
Fixpoint plain (s : string) : bool :=
  match s with
  | EmptyString => true
  | String c s' =>
      negb (Ascii.eqb c Sh.dq) && negb (Ascii.eqb c "\"%char) && plain s'
  end.

Definition item_open : string :=
  "{" +:+ Sh.DQ +:+ "service" +:+ Sh.DQ +:+ ":" +:+ Sh.DQ.

Definition matrix_open : string :=
  "{" +:+ Sh.DQ +:+ "include" +:+ Sh.DQ +:+ ":[".

(** One or more objects with the single key [service], separated by
    commas and closed by the end of the matrix. *)
Fixpoint read_items (fuel : nat) (s : string) : option (list string) :=
  match fuel with
  | O => None
  | S fuel' =>
      match Sh.strip_prefix item_open s with
      | None => None
      | Some s1 =>
          match read_string s1 with
          | None => None
          | Some (dir, s2) =>
              match s2 with
              | String "}" (String "," s3) =>
                  match read_items fuel' s3 with
                  | Some rest => Some (dir :: rest)
                  | None => None
                  end
              | String "}" (String "]" (String "}" EmptyString)) => Some [dir]
              | _ => None
              end
          end
      end
  end.

(** [fromJson] on a matrix text: the [service] values of its [include]
    list, in order; [None] when the text is not of that shape. *)
Definition from_json (s : string) : option (list string) :=
  match Sh.strip_prefix matrix_open s with
  | None => None
  | Some body =>
      match body with
      | String "]" (String "}" EmptyString) => Some []
      | _ => read_items (String.length body) body
      end
  end.

End Json.

(** ** Job [build-and-push]: one unit of the matrix *)

Module Build.

(** Image digests and the content of a cache directory are opaque texts. *)
Abbreviation digest := string (only parsing).
Abbreviation blob := string (only parsing).

(** The values a unit reads from its contexts: [matrix.service],
    [github.sha] and the two secrets (an unset secret reads as the empty
    string). *)
Record context : Type := {
  SERVICE : string;
  GITHUB_SHA : string;
  DOCKER_USERNAME : string;
  CICD_DOCKERHUB : string
}.

(** What is outside the workflow: the files of the checked-out commit
    ([test -f]), the accounts the registry accepts, and what the build
    engine makes of a descriptor, a context directory and an imported
    cache (an image digest with the cache it exports, or an error). *)
Inductive buildx_result : Type :=
| Built (image : digest) (exported : blob)
| BuildxError.

Record world : Type := {
  is_file : string -> bool;
  account_ok : string -> string -> bool;
  engine : string -> string -> option blob -> buildx_result
}.

(** What a unit can change: the directories under [/tmp] of its own
    runner, the repository's cache entries (newest first), the tags of
    the registry, and whether the runner is logged in. *)
Record state : Type := {
  tmp : gmap string blob;
  cache_store : list (string * blob);
  hub : gmap string digest;
  logged_in : bool
}.

Definition with_tmp (t : gmap string blob) (st : state) : state :=
  {| tmp := t; cache_store := cache_store st; hub := hub st;
     logged_in := logged_in st |}.
Definition with_cache_store (c : list (string * blob)) (st : state) : state :=
  {| tmp := tmp st; cache_store := c; hub := hub st;
     logged_in := logged_in st |}.
Definition with_hub (h : gmap string digest) (st : state) : state :=
  {| tmp := tmp st; cache_store := cache_store st; hub := h;
     logged_in := logged_in st |}.
Definition with_logged_in (b : bool) (st : state) : state :=
  {| tmp := tmp st; cache_store := cache_store st; hub := hub st;
     logged_in := b |}.

(** *** Step [Cache Docker layers] (lines 68-74) *)

Definition cache_key (c : context) : string :=
  Workflow.runner_os +:+ "-buildx-" +:+ SERVICE c +:+ "-" +:+ GITHUB_SHA c.

Definition cache_restore_key (c : context) : string :=
  Workflow.runner_os +:+ "-buildx-" +:+ SERVICE c +:+ "-".

(** The entry restored: the one stored under [key], else the newest one
    whose key starts with the restore key. *)
Definition cache_lookup (c : context) (store : list (string * blob))
  : option (string * blob) :=
  match find (fun e => String.eqb (fst e) (cache_key c)) store with
  | Some e => Some e
  | None => find (fun e => Sh.starts_with (cache_restore_key c) (fst e)) store
  end.

Definition cache_restore (c : context) (st : state) : state :=
  match cache_lookup c (cache_store st) with
  | Some (_, b) => with_tmp (<[Workflow.cache_path := b]> (tmp st)) st
  | None => st
  end.

(** The content of the directory at [path] after the restore on a
    fresh runner. *)
Definition imported (c : context) (store : list (string * blob))
  : option blob :=
  snd <$> cache_lookup c store.

Definition cache_exact_hit (c : context) (store : list (string * blob)) : bool :=
  existsb (fun e => String.eqb (fst e) (cache_key c)) store.

(** The step's post action, run when the job has succeeded: unless
    [key] was already stored, the directory at [path], if there is one,
    is stored under [key]. *)
Definition cache_save (c : context) (st : state) : state :=
  if cache_exact_hit c (cache_store st) then st
  else match tmp st !! Workflow.cache_path with
       | Some b => with_cache_store ((cache_key c, b) :: cache_store st) st
       | None => st
       end.

(** *** Step [Log in to DockerHub] (lines 76-80) *)

Definition login_ok (w : world) (c : context) : bool :=
  negb (String.eqb (DOCKER_USERNAME c) "") &&
  negb (String.eqb (CICD_DOCKERHUB c) "") &&
  account_ok w (DOCKER_USERNAME c) (CICD_DOCKERHUB c).

(** *** Step [Build and Push Docker Image] (lines 82-113) *)

(** The [docker buildx build] command line of lines 106-113. *)
Record buildx_command : Type := {
  cache_from : string;
  cache_to : string;
  push : bool;
  file : string;
  tags : list string;
  build_context : string
}.

Inductive script_outcome : Type :=
| Exit1 (message : string)
| Runs (cmd : buildx_command).

Definition cross_mark : string :=
  String "226"%char (String "157"%char (String "140"%char "")).

(** The script, assignment by assignment.  [SERVICE] and the image names
    are expanded unquoted at lines 88 and 111-112; every service of the
    registry is one word ([Sh.one_word]), so each expands to itself. *)
Definition build_script (w : world) (c : context) : script_outcome :=
  let DOCKER_USER := DOCKER_USERNAME c in
  let NAME := Sh.basename (SERVICE c) in
  let IMAGE_LATEST := DOCKER_USER +:+ "/" +:+ NAME +:+ ":latest" in
  let IMAGE_SHA :=
    DOCKER_USER +:+ "/" +:+ NAME +:+ ":" +:+ Sh.take_chars 7 (GITHUB_SHA c) in
  let DOCKERFILE_PATH := SERVICE c +:+ "/Dockerfile" in
  let CONTEXT_PATH := SERVICE c in
  let '(DOCKERFILE_PATH, CONTEXT_PATH) :=
    if negb (is_file w DOCKERFILE_PATH)
    then (SERVICE c +:+ "/src/Dockerfile", SERVICE c +:+ "/src")
    else (DOCKERFILE_PATH, CONTEXT_PATH) in
  if negb (is_file w DOCKERFILE_PATH)
  then Exit1 (cross_mark +:+ " Dockerfile not found for " +:+ SERVICE c)
  else Runs {| cache_from := Workflow.cache_from_src;
               cache_to := Workflow.cache_to_dest;
               push := true;
               file := DOCKERFILE_PATH;
               tags := [IMAGE_LATEST; IMAGE_SHA];
               build_context := CONTEXT_PATH |}.

(** The two image names of lines 89-90 and the command of lines
    106-113 for a resolved descriptor, named for the statements below. *)
Definition latest_tag (c : context) : string :=
  DOCKER_USERNAME c +:+ "/" +:+ Sh.basename (SERVICE c) +:+ ":latest".

Definition sha_tag (c : context) : string :=
  DOCKER_USERNAME c +:+ "/" +:+ Sh.basename (SERVICE c)
    +:+ ":" +:+ Sh.take_chars 7 (GITHUB_SHA c).

Definition command_for (c : context) (d : Spec.descriptor) : buildx_command :=
  {| cache_from := Workflow.cache_from_src;
     cache_to := Workflow.cache_to_dest;
     push := true;
     file := Spec.dockerfile_path d;
     tags := [latest_tag c; sha_tag c];
     build_context := Spec.context_path d |}.

(** The descriptor and context the script settles on, if any. *)
Definition descriptor_of (o : script_outcome) : option Spec.descriptor :=
  match o with
  | Exit1 _ => None
  | Runs cmd => Some {| Spec.dockerfile_path := file cmd;
                        Spec.context_path := build_context cmd |}
  end.

(** Pushing a tag makes it point at the image, whatever it pointed at. *)
Definition push_tags (ts : list string) (d : digest)
    (h : gmap string digest) : gmap string digest :=
  fold_left (fun h t => <[t := d]> h) ts h.

(** The command's effect: the cache at [cache_from] is imported, the
    image is built, its tags are pushed (which needs a logged-in runner)
    and the cache is exported to [cache_to]; on an error nothing is
    pushed or exported. *)
Definition docker_buildx_build (w : world) (cmd : buildx_command)
    (st : state) : state * bool :=
  match engine w (file cmd) (build_context cmd) (tmp st !! cache_from cmd) with
  | Built d exported =>
      if push cmd && negb (logged_in st) then (st, false)
      else
        let h := if push cmd then push_tags (tags cmd) d (hub st) else hub st in
        (with_tmp (<[cache_to cmd := exported]> (tmp st)) (with_hub h st), true)
  | BuildxError => (st, false)
  end.

(** *** The job: its steps in order *)

Inductive step_id : Type :=
| Checkout | SetUpBuildx | CacheLayers | LogIn | BuildAndPush.

Definition steps : list step_id :=
  [Checkout; SetUpBuildx; CacheLayers; LogIn; BuildAndPush].

(** One step.  The checkout and the builder set-up are taken to succeed;
    the cache step restores and never fails the job (a miss is not an
    error). *)
Definition run_step (w : world) (c : context) (s : step_id) (st : state)
  : state * bool :=
  match s with
  | Checkout => (st, true)
  | SetUpBuildx => (st, true)
  | CacheLayers => (cache_restore c st, true)
  | LogIn =>
      if login_ok w c then (with_logged_in true st, true) else (st, false)
  | BuildAndPush =>
      match build_script w c with
      | Exit1 _ => (st, false)
      | Runs cmd => docker_buildx_build w cmd st
      end
  end.

Inductive result : Type :=
| Success
| Failure (at_step : step_id).

(** Steps run in order; a step runs only while every step before it has
    succeeded.  The trace lists the steps that were started. *)
Fixpoint run_steps (w : world) (c : context) (todo : list step_id)
    (st : state) (trace : list step_id) : state * list step_id * result :=
  match todo with
  | [] => (st, trace, Success)
  | s :: rest =>
      let '(st', ok) := run_step w c s st in
      if ok then run_steps w c rest st' (trace ++ [s])
      else (st', trace ++ [s], Failure s)
  end.

(** A unit starts on a fresh runner (nothing under [/tmp], not logged
    in) and sees the cache entries and the registry as they are; the
    cache is saved at the end of a successful job. *)
Definition fresh (store : list (string * blob)) (h : gmap string digest) : state :=
  {| tmp := ∅; cache_store := store; hub := h; logged_in := false |}.

Definition run_unit (w : world) (c : context)
    (store : list (string * blob)) (h : gmap string digest)
  : state * list step_id * result :=
  let '(st, trace, r) := run_steps w c steps (fresh store h) [] in
  match r with
  | Success => (cache_save c st, trace, r)
  | Failure _ => (st, trace, r)
  end.

(** The four ways a unit can end, by what stops it: the login, the search
    for a descriptor, the engine, or nothing. *)
Inductive unit_end (w : world) (c : context)
    (store : list (string * blob)) (h : gmap string digest)
  : state * list step_id * result -> Prop :=
| end_login :
    login_ok w c = false ->
    unit_end w c store h
      (cache_restore c (fresh store h),
       [Checkout; SetUpBuildx; CacheLayers; LogIn], Failure LogIn)
| end_no_descriptor :
    login_ok w c = true ->
    Spec.resolve (is_file w) (SERVICE c) = None ->
    unit_end w c store h
      (with_logged_in true (cache_restore c (fresh store h)),
       steps, Failure BuildAndPush)
| end_engine_error (d : Spec.descriptor) :
    login_ok w c = true ->
    Spec.resolve (is_file w) (SERVICE c) = Some d ->
    engine w (Spec.dockerfile_path d) (Spec.context_path d)
           (imported c store) = BuildxError ->
    unit_end w c store h
      (with_logged_in true (cache_restore c (fresh store h)),
       steps, Failure BuildAndPush)
| end_built (d : Spec.descriptor) (image : digest) (exported : blob) :
    login_ok w c = true ->
    Spec.resolve (is_file w) (SERVICE c) = Some d ->
    engine w (Spec.dockerfile_path d) (Spec.context_path d)
           (imported c store) = Built image exported ->
    unit_end w c store h
      (cache_save c
         (with_tmp
            (<[Workflow.cache_to_dest := exported]>
               (tmp (cache_restore c (fresh store h))))
            (with_hub
               (<[sha_tag c := image]> (<[latest_tag c := image]> h))
               (with_logged_in true (cache_restore c (fresh store h))))),
       steps, Success).

End Build.

(** ** The run: both jobs and the matrix fan-out *)

Module Run.

(** [strategy] of [build-and-push] (lines 59-60) names a matrix and
    nothing else; [fail-fast] is not written, and a strategy without it
    runs with [fail-fast: true]. *)
Definition strategy_fail_fast : option bool := None.
Definition fail_fast : bool := default true strategy_fail_fast.

(** The job condition of line 57 on the output of [detect-changes]:
    [!=] on two strings, which ignores case. *)
Definition build_and_push_if (services_output : string) : bool :=
  negb (String.eqb (Sh.lower services_output)
                   (Sh.lower Workflow.empty_matrix)).

(** The units the job expands to: none when the condition is false
    (the job is skipped), else one per entry of [fromJson] of the output;
    [None] when the output cannot be read as a matrix. *)
Definition spawn (services_output : string) : option (list string) :=
  if build_and_push_if services_output
  then Json.from_json services_output
  else Some [].

Inductive status : Type :=
| Queued
| InProgress
| Completed (r : Build.result)
| Cancelled.

(** The matrix while it runs: each unit with its status, and what the
    units share, the cache entries and the registry. *)
Record fan : Type := {
  units : list (string * status);
  store : list (string * Build.blob);
  registry_tags : gmap string Build.digest
}.

Definition init (services : list string)
    (store0 : list (string * Build.blob))
    (hub0 : gmap string Build.digest) : fan :=
  {| units := map (fun s => (s, Queued)) services;
     store := store0; registry_tags := hub0 |}.

Definition status_of (f : fan) (i : nat) : option status :=
  snd <$> units f !! i.

(** What the run gives a unit besides its service. *)
Record settings : Type := {
  head_sha : string;
  docker_username : string;
  cicd_dockerhub : string
}.

Definition context_of (cfg : settings) (service : string) : Build.context :=
  {| Build.SERVICE := service;
     Build.GITHUB_SHA := head_sha cfg;
     Build.DOCKER_USERNAME := docker_username cfg;
     Build.CICD_DOCKERHUB := cicd_dockerhub cfg |}.

Definition is_failure (r : Build.result) : bool :=
  match r with Build.Success => false | Build.Failure _ => true end.

(** With [fail-fast], a failing unit cancels every unit of the matrix
    that is queued or in progress. *)
Definition cancel_pending (u : string * status) : string * status :=
  match snd u with
  | Queued | InProgress => (fst u, Cancelled)
  | _ => u
  end.

Inductive event : Type :=
| Start (i : nat)
| Finish (i : nat).

(** One event of the schedule.  [Start i] takes a queued unit in
    progress; [Finish i] runs the job of a unit in progress to its end
    and records its result.  Any other event changes nothing. *)
Definition step (w : Build.world) (cfg : settings) (e : event) (f : fan)
  : fan :=
  match e with
  | Start i =>
      match units f !! i with
      | Some (s, Queued) =>
          {| units := <[i := (s, InProgress)]> (units f);
             store := store f; registry_tags := registry_tags f |}
      | _ => f
      end
  | Finish i =>
      match units f !! i with
      | Some (s, InProgress) =>
          let '(st, _, r) :=
            Build.run_unit w (context_of cfg s) (store f) (registry_tags f) in
          let us := if is_failure r && fail_fast
                    then map cancel_pending (units f) else units f in
          {| units := <[i := (s, Completed r)]> us;
             store := Build.cache_store st;
             registry_tags := Build.hub st |}
      | _ => f
      end
  end.

Definition run_events (w : Build.world) (cfg : settings)
    (es : list event) (f : fan) : fan :=
  fold_left (fun f e => step w cfg e f) es f.

Inductive conclusion : Type :=
| RunSuccess
| RunFailure
| RunCancelled.

Definition failed (u : string * status) : bool :=
  match snd u with Completed r => is_failure r | _ => false end.
Definition cancelled (u : string * status) : bool :=
  match snd u with Cancelled => true | _ => false end.

(** The conclusion of a run whose matrix has come to rest: failure when
    a unit failed, else cancelled when one was cancelled, else success
    (also when the job was skipped and there is no unit). *)
Definition conclude (f : fan) : conclusion :=
  if existsb failed (units f) then RunFailure
  else if existsb cancelled (units f) then RunCancelled
  else RunSuccess.

(** A whole run on what [git diff --name-only] printed: the first job
    computes the matrix text, the second is expanded from it and driven
    by the schedule.  [None] when the matrix text cannot be read. *)
Definition run (w : Build.world) (cfg : settings) (changed : string)
    (store0 : list (string * Build.blob)) (hub0 : gmap string Build.digest)
    (schedule : list event) : option fan :=
  match spawn (Detect.set_matrix changed) with
  | Some services =>
      Some (run_events w cfg schedule (init services store0 hub0))
  | None => None
  end.

End Run.

(** ** Concrete runs used below *)

Module Scenario.

Definition cfg : Run.settings :=
  {| Run.head_sha := "0123456789abcdef0123456789abcdef01234567";
     Run.docker_username := "kodenops";
     Run.cicd_dockerhub := "token" |}.

(** The same run without the two secrets. *)
Definition cfg_no_secrets : Run.settings :=
  {| Run.head_sha := "0123456789abcdef0123456789abcdef01234567";
     Run.docker_username := "";
     Run.cicd_dockerhub := "" |}.

(** A checkout in which every service but [src/cartservice] has its
    descriptor at the service root, and an engine that builds. *)
Definition w_cart_missing : Build.world :=
  {| Build.is_file := fun p =>
       Sh.starts_with "src/" p
       && negb (Sh.starts_with "src/cartservice/" p);
     Build.account_ok := fun u p =>
       String.eqb u "kodenops" && String.eqb p "token";
     Build.engine := fun f _ _ =>
       Build.Built ("sha256:image-of-" +:+ f) ("layers-of-" +:+ f) |}.

Definition changed_two : string :=
  Sh.unlines ["src/cartservice/main.go"; "src/paymentservice/server.js";
              "README.md"].

(** A checkout with the descriptor of [src/frontend] at its root only,
    and one with it under [src/frontend/src] only. *)
Definition w_root : Build.world :=
  {| Build.is_file := fun p => String.eqb p "src/frontend/Dockerfile";
     Build.account_ok := fun u p =>
       String.eqb u "kodenops" && String.eqb p "token";
     Build.engine := fun _ _ _ => Build.Built "sha256:new" "layers-new" |}.

Definition frontend : Build.context := Run.context_of cfg "src/frontend".

(** The registry after an earlier build of the same commit. *)
Definition hub_before : gmap string Build.digest :=
  {[ "kodenops/frontend:0123456" := "sha256:old" ]}.

(** A cache entry of an earlier commit of [src/frontend]. *)
Definition store_before : list (string * Build.blob) :=
  [("Linux-buildx-src/frontend-89abcdef", "layers-old")].

(** The next commit, built after the first one. *)
Definition next : Build.context :=
  {| Build.SERVICE := "src/frontend";
     Build.GITHUB_SHA := "fedcba9876543210fedcba9876543210fedcba98";
     Build.DOCKER_USERNAME := "kodenops";
     Build.CICD_DOCKERHUB := "token" |}.

End Scenario.

(** ** The job output of [detect-changes] *)

Module Output.

(** Line 54: the line appended to the file [$GITHUB_OUTPUT]. *)
Definition output_line (changed : string) : string :=
  "services=" +:+ Detect.set_matrix changed.

(** An output file is read line by line; a line [name=value] sets the
    output [name], the value being everything after the first [=]. *)
Fixpoint read_output (line : string) : option (string * string) :=
  match line with
  | EmptyString => None
  | String c rest =>
      if Ascii.eqb c "=" then Some ("", rest)
      else match read_output rest with
           | Some (name, value) => Some (String c name, value)
           | None => None
           end
  end.

Definition read_outputs (file : string) : list (string * string) :=
  omap read_output (Sh.lines file).

End Output.

(** ** The frontend's start-up ([src/frontend/main.go])

    [main] reads its configuration from the environment, connects to the
    services it calls and starts to listen.  A panic ends the process; it
    is modelled as an outcome that carries the message and the state the
    process had reached.  A pointer to a field of the server is the
    field's name. *)

Module Frontend.

(** The constant [port] (line 34). *)
Definition port : string := "8080".

(** The address and connection fields of [frontendServer]
    (lines 58-84). *)
Inductive addr_field : Type :=
| productCatalogSvcAddr | currencySvcAddr | cartSvcAddr
| recommendationSvcAddr | checkoutSvcAddr | shippingSvcAddr
| adSvcAddr | collectorAddr | shoppingAssistantSvcAddr.

Inductive conn_field : Type :=
| productCatalogSvcConn | currencySvcConn | cartSvcConn
| recommendationSvcConn | checkoutSvcConn | shippingSvcConn
| adSvcConn | collectorConn.

#[global] Instance addr_field_eq_dec : EqDecision addr_field.
Proof. solve_decision. Defined.

#[global] Instance conn_field_eq_dec : EqDecision conn_field.
Proof. solve_decision. Defined.

(** A connection is known by the address it was dialled to; [None] is
    the nil pointer. *)
Record frontendServer : Type := {
  addrs : addr_field -> string;
  conns : conn_field -> option string
}.

(** [new(frontendServer)]: every field at its zero value. *)
Definition new_frontendServer : frontendServer :=
  {| addrs := fun _ => ""; conns := fun _ => None |}.

Definition set_addr (f : addr_field) (v : string) (s : frontendServer)
  : frontendServer :=
  {| addrs := fun g => if decide (g = f) then v else addrs s g;
     conns := conns s |}.

Definition set_conn (f : conn_field) (v : option string)
    (s : frontendServer) : frontendServer :=
  {| addrs := addrs s;
     conns := fun g => if decide (g = f) then v else conns s g |}.

(** What the process meets: its environment, whether the tracer of the
    agent was initialised at import, and the error, if any, of dialling
    an address. *)
Record world : Type := {
  environ : gmap string string;
  tracer_ready : bool;
  dial_error : string -> option string
}.

(** [os.Getenv]: the value of the variable, empty when it is not set. *)
Definition getenv (w : world) (key : string) : string :=
  default "" (environ w !! key).

(** The state of the process: the server under construction and the
    addresses dialled so far, in order. *)
Record proc : Type := {
  svc : frontendServer;
  dialled : list string
}.

Inductive outcome (A : Type) : Type :=
| Ok (a : A) (p : proc)
| Panic (message : string) (p : proc).

Arguments Ok {A} a p.
Arguments Panic {A} message p.

Definition and_then (a : proc -> outcome unit) {B}
    (b : proc -> outcome B) (p : proc) : outcome B :=
  match a p with
  | Ok _ p' => b p'
  | Panic m p' => Panic m p'
  end.

(** [%q] of a variable name: the name between double quotes (the names
    used here hold letters and underscores only). *)
Definition quoted (s : string) : string := Sh.DQ +:+ s +:+ Sh.DQ.

(** [mustMapEnv] (lines 178-184). *)
Definition mustMapEnv (w : world) (target : addr_field) (envKey : string)
    (p : proc) : outcome unit :=
  let v := getenv w envKey in
  if String.eqb v "" then
    Panic ("environment variable " +:+ quoted envKey +:+ " not set") p
  else
    Ok tt {| svc := set_addr target v (svc p); dialled := dialled p |}.

(** [mustConnGRPC] (lines 186-197): the field gets what the dial returns,
    and a dial error panics with the wrapped message. *)
Definition mustConnGRPC (w : world) (conn : conn_field)
    (addr : frontendServer -> string) (p : proc) : outcome unit :=
  let a := addr (svc p) in
  match dial_error w a with
  | None =>
      Ok tt {| svc := set_conn conn (Some a) (svc p);
               dialled := dialled p ++ [a] |}
  | Some err =>
      Panic ("grpc: failed to connect " +:+ a +:+ ": " +:+ err)
            {| svc := set_conn conn None (svc p);
               dialled := dialled p ++ [a] |}
  end.

(** The second phase of [main] (lines 141-148): the seven connections,
    then the server listening on [listen]. *)
Definition connect (w : world) (listen : string) : proc -> outcome string :=
  and_then (mustConnGRPC w currencySvcConn
              (fun s => addrs s currencySvcAddr))
  (and_then (mustConnGRPC w productCatalogSvcConn
               (fun s => addrs s productCatalogSvcAddr))
  (and_then (mustConnGRPC w cartSvcConn (fun s => addrs s cartSvcAddr))
  (and_then (mustConnGRPC w recommendationSvcConn
               (fun s => addrs s recommendationSvcAddr))
  (and_then (mustConnGRPC w shippingSvcConn
               (fun s => addrs s shippingSvcAddr))
  (and_then (mustConnGRPC w checkoutSvcConn
               (fun s => addrs s checkoutSvcAddr))
  (and_then (mustConnGRPC w adSvcConn (fun s => addrs s adSvcAddr))
     (fun p => Ok listen p))))))).

(** [main] (lines 86-176) up to the call of [http.ListenAndServe]: the
    result is the address the server listens on. *)
Definition main (w : world) : outcome string :=
  let start := {| svc := new_frontendServer; dialled := [] |} in
  if negb (tracer_ready w) then
    Panic "elastic apm tracer not initialized" start
  else
    let srvPort :=
      if negb (String.eqb (getenv w "PORT") "") then getenv w "PORT"
      else port in
    let addr :=
      if String.eqb (getenv w "LISTEN_ADDR") "" then "0.0.0.0"
      else getenv w "LISTEN_ADDR" in
    (and_then (mustMapEnv w productCatalogSvcAddr "PRODUCT_CATALOG_SERVICE_ADDR")
    (and_then (mustMapEnv w currencySvcAddr "CURRENCY_SERVICE_ADDR")
    (and_then (mustMapEnv w cartSvcAddr "CART_SERVICE_ADDR")
    (and_then (mustMapEnv w recommendationSvcAddr "RECOMMENDATION_SERVICE_ADDR")
    (and_then (mustMapEnv w checkoutSvcAddr "CHECKOUT_SERVICE_ADDR")
    (and_then (mustMapEnv w shippingSvcAddr "SHIPPING_SERVICE_ADDR")
    (and_then (mustMapEnv w adSvcAddr "AD_SERVICE_ADDR")
    (and_then (mustMapEnv w shoppingAssistantSvcAddr
                 "SHOPPING_ASSISTANT_SERVICE_ADDR")
       (connect w (addr +:+ ":" +:+ srvPort))))))))))
      start.

(** The listen address [main] computes (lines 121-129). *)
Definition listen_address (w : world) : string :=
  (if String.eqb (getenv w "LISTEN_ADDR") "" then "0.0.0.0"
   else getenv w "LISTEN_ADDR")
  +:+ ":" +:+
  (if negb (String.eqb (getenv w "PORT") "") then getenv w "PORT" else port).

(** The server once the eight variables are read. *)
Definition loaded (w : world) : proc :=
  {| svc :=
       set_addr shoppingAssistantSvcAddr
         (getenv w "SHOPPING_ASSISTANT_SERVICE_ADDR")
       (set_addr adSvcAddr (getenv w "AD_SERVICE_ADDR")
       (set_addr shippingSvcAddr (getenv w "SHIPPING_SERVICE_ADDR")
       (set_addr checkoutSvcAddr (getenv w "CHECKOUT_SERVICE_ADDR")
       (set_addr recommendationSvcAddr
          (getenv w "RECOMMENDATION_SERVICE_ADDR")
       (set_addr cartSvcAddr (getenv w "CART_SERVICE_ADDR")
       (set_addr currencySvcAddr (getenv w "CURRENCY_SERVICE_ADDR")
       (set_addr productCatalogSvcAddr
          (getenv w "PRODUCT_CATALOG_SERVICE_ADDR")
          new_frontendServer)))))));
     dialled := [] |}.

(** The server once the seven connections are made. *)
Definition started (w : world) : proc :=
  {| svc :=
       set_conn adSvcConn (Some (getenv w "AD_SERVICE_ADDR"))
       (set_conn checkoutSvcConn (Some (getenv w "CHECKOUT_SERVICE_ADDR"))
       (set_conn shippingSvcConn (Some (getenv w "SHIPPING_SERVICE_ADDR"))
       (set_conn recommendationSvcConn
          (Some (getenv w "RECOMMENDATION_SERVICE_ADDR"))
       (set_conn cartSvcConn (Some (getenv w "CART_SERVICE_ADDR"))
       (set_conn productCatalogSvcConn
          (Some (getenv w "PRODUCT_CATALOG_SERVICE_ADDR"))
       (set_conn currencySvcConn (Some (getenv w "CURRENCY_SERVICE_ADDR"))
          (svc (loaded w))))))));
     dialled :=
       [ getenv w "CURRENCY_SERVICE_ADDR";
         getenv w "PRODUCT_CATALOG_SERVICE_ADDR";
         getenv w "CART_SERVICE_ADDR";
         getenv w "RECOMMENDATION_SERVICE_ADDR";
         getenv w "SHIPPING_SERVICE_ADDR";
         getenv w "CHECKOUT_SERVICE_ADDR";
         getenv w "AD_SERVICE_ADDR" ] |}.

(** The variables [main] requires, in the order it reads them, each with
    the field it fills, and the fields it dials, in the order it dials
    them. *)
Definition required_env : list (addr_field * string) :=
  [ (productCatalogSvcAddr, "PRODUCT_CATALOG_SERVICE_ADDR");
    (currencySvcAddr, "CURRENCY_SERVICE_ADDR");
    (cartSvcAddr, "CART_SERVICE_ADDR");
    (recommendationSvcAddr, "RECOMMENDATION_SERVICE_ADDR");
    (checkoutSvcAddr, "CHECKOUT_SERVICE_ADDR");
    (shippingSvcAddr, "SHIPPING_SERVICE_ADDR");
    (adSvcAddr, "AD_SERVICE_ADDR");
    (shoppingAssistantSvcAddr, "SHOPPING_ASSISTANT_SERVICE_ADDR") ].

Definition dial_order : list (conn_field * string) :=
  [ (currencySvcConn, "CURRENCY_SERVICE_ADDR");
    (productCatalogSvcConn, "PRODUCT_CATALOG_SERVICE_ADDR");
    (cartSvcConn, "CART_SERVICE_ADDR");
    (recommendationSvcConn, "RECOMMENDATION_SERVICE_ADDR");
    (shippingSvcConn, "SHIPPING_SERVICE_ADDR");
    (checkoutSvcConn, "CHECKOUT_SERVICE_ADDR");
    (adSvcConn, "AD_SERVICE_ADDR") ].

(** An environment with every required variable, and a network on which
    only the cart service cannot be dialled. *)
Definition env_full : gmap string string :=
  list_to_map
    [ ("PRODUCT_CATALOG_SERVICE_ADDR", "productcatalogservice:3550");
      ("CURRENCY_SERVICE_ADDR", "currencyservice:7000");
      ("CART_SERVICE_ADDR", "cartservice:7070");
      ("RECOMMENDATION_SERVICE_ADDR", "recommendationservice:8080");
      ("CHECKOUT_SERVICE_ADDR", "checkoutservice:5050");
      ("SHIPPING_SERVICE_ADDR", "shippingservice:50051");
      ("AD_SERVICE_ADDR", "adservice:9555");
      ("SHOPPING_ASSISTANT_SERVICE_ADDR", "shoppingassistantservice:80");
      ("PORT", "9090") ].

Definition w_ready : world :=
  {| environ := env_full; tracer_ready := true;
     dial_error := fun _ => None |}.

Definition w_no_cart_var : world :=
  {| environ := delete "CART_SERVICE_ADDR" env_full; tracer_ready := true;
     dial_error := fun _ => None |}.

Definition w_cart_down : world :=
  {| environ := env_full; tracer_ready := true;
     dial_error := fun a =>
       if String.eqb a "cartservice:7070" then Some "connection refused"
       else None |}.

End Frontend.

(** ** The specification's scenarios, run *)

(** Scenario A: a change under [src/frontend] only. *)
Example scenario_a :
  Detect.set_matrix "src/frontend/static/x.css"
  = "{" +:+ Sh.DQ +:+ "include" +:+ Sh.DQ +:+ ":[{" +:+ Sh.DQ +:+ "service"
      +:+ Sh.DQ +:+ ":" +:+ Sh.DQ +:+ "src/frontend" +:+ Sh.DQ +:+ "}]}"
  /\ Run.spawn (Detect.set_matrix "src/frontend/static/x.css")
     = Some ["src/frontend"]
  /\ Sh.basename "src/frontend" = "frontend".
Proof. repeat split. Qed.

(** Scenario B: two services and an unrelated file, listed against the
    registry's order. *)
Example scenario_b :
  Run.spawn (Detect.set_matrix
               (Sh.unlines ["src/paymentservice/server.js"; "README.md";
                            "src/cartservice/main.go"]))
  = Some ["src/cartservice"; "src/paymentservice"].
Proof. reflexivity. Qed.

(** Scenario C: no watched directory is touched. *)
Example scenario_c :
  Detect.set_matrix (Sh.unlines ["README.md"; "docs/img/arch.png"])
  = Workflow.empty_matrix
  /\ Run.conclude
       <$> Run.run Scenario.w_root Scenario.cfg
             (Sh.unlines ["README.md"; "docs/img/arch.png"]) [] ∅
             [Run.Start 0; Run.Finish 0]
     = Some Run.RunSuccess.
Proof. split; reflexivity. Qed.

(** Scenario D, when the unit with a descriptor finishes first: its
    image is pushed, the other unit fails, the run concludes with
    failure. *)
Example scenario_d_sibling_first :
  let f := Run.run Scenario.w_cart_missing Scenario.cfg Scenario.changed_two
                   [] ∅ [Run.Start 0; Run.Start 1; Run.Finish 1; Run.Finish 0] in
  Run.units <$> f
  = Some [("src/cartservice", Run.Completed (Build.Failure Build.BuildAndPush));
          ("src/paymentservice", Run.Completed Build.Success)] /\
  (f ≫= fun f => Run.registry_tags f !! "kodenops/paymentservice:0123456")
  = Some "sha256:image-of-src/paymentservice/Dockerfile" /\
  Run.conclude <$> f = Some Run.RunFailure.
Proof. vm_compute. repeat split. Qed.

Example basename_ex :
  map Sh.basename ["src/frontend"; "a/b/"; "//"; "x"; ""; "a//b"]
  = ["frontend"; "b"; "/"; "x"; ""; "b"].
Proof. reflexivity. Qed.

Example glob_ex :
  map (Trigger.path_matches "release/**")
      ["release/a"; "release/a/b"; "releases/a"; "src/release/a"]
  = [true; true; false; false].
Proof. reflexivity. Qed.

Example condition_ignores_case :
  Run.build_and_push_if
    ("{" +:+ Sh.DQ +:+ "INCLUDE" +:+ Sh.DQ +:+ ":[]}") = false
  /\ Run.build_and_push_if "{}" = true.
Proof. split; reflexivity. Qed.

(** ** Strings: prefixes, appending, lines *)

Section StringFacts.

Lemma append_cons (x : ascii) (a b : string) :
  String x a +:+ b = String x (a +:+ b).
Proof. reflexivity. Qed.

Lemma append_nil_l (b : string) : "" +:+ b = b.
Proof. reflexivity. Qed.

Lemma append_assoc (a b c : string) : (a +:+ b) +:+ c = a +:+ (b +:+ c).
Proof.
  induction a as [|x a IH]; [reflexivity |].
  now rewrite !append_cons, IH.
Qed.

Lemma append_nil_r (a : string) : a +:+ "" = a.
Proof.
  induction a as [|x a IH]; [reflexivity |].
  now rewrite append_cons, IH.
Qed.

Lemma starts_with_app (p s : string) : Sh.starts_with p (p +:+ s) = true.
Proof.
  induction p as [|a p IH]; [reflexivity |].
  rewrite append_cons. simpl. now rewrite Ascii.eqb_refl, IH.
Qed.

Lemma starts_with_inv (p s : string) :
  Sh.starts_with p s = true -> exists r, s = p +:+ r.
Proof.
  revert s; induction p as [|a p IH]; intros s H; simpl in *.
  - now exists s.
  - destruct s as [|b s]; [discriminate |].
    apply andb_prop in H as [Hab Hps].
    apply Ascii.eqb_eq in Hab; subst b.
    destruct (IH _ Hps) as [r ->]. exists r. now rewrite append_cons.
Qed.

Lemma starts_with_iff (p s : string) :
  Sh.starts_with p s = true <-> exists r, s = p +:+ r.
Proof.
  split; [apply starts_with_inv | intros [r ->]; apply starts_with_app].
Qed.

Lemma strip_prefix_app (p s : string) : Sh.strip_prefix p (p +:+ s) = Some s.
Proof.
  induction p as [|a p IH]; [reflexivity |].
  rewrite append_cons. simpl. now rewrite Ascii.eqb_refl.
Qed.

Lemma lines_from_nonempty cur s : Sh.lines_from cur s <> [].
Proof.
  revert cur; induction s as [|c s IH]; intros cur; simpl; [discriminate |].
  destruct (Ascii.eqb c Sh.nl); [discriminate | apply IH].
Qed.

Lemma lines_nonempty s : Sh.lines s <> [].
Proof. apply lines_from_nonempty. Qed.

Lemma lines_from_ext (cur cur' : string -> string) (s : string) :
  (forall r, cur r = cur' r) -> Sh.lines_from cur s = Sh.lines_from cur' s.
Proof.
  revert cur cur'; induction s as [|x s IH]; intros cur cur' H; simpl.
  - now rewrite H.
  - destruct (Ascii.eqb x Sh.nl); [now rewrite H |].
    apply IH. intros r. apply H.
Qed.

Lemma lines_from_line (cur : string -> string) (p rest : string) :
  Sh.no_newline p = true ->
  Sh.lines_from cur (p +:+ String Sh.nl rest)
  = cur p :: Sh.lines_from (fun r => r) rest.
Proof.
  revert cur; induction p as [|x p IH]; intros cur Hp.
  - reflexivity.
  - simpl in Hp. apply andb_prop in Hp as [Hx Hp].
    apply negb_true_iff in Hx. rewrite append_cons. simpl. rewrite Hx.
    now rewrite (IH (fun r => cur (String x r)) Hp).
Qed.

Lemma lines_from_last (cur : string -> string) (p : string) :
  Sh.no_newline p = true -> Sh.lines_from cur p = [cur p].
Proof.
  revert cur; induction p as [|x p IH]; intros cur Hp.
  - reflexivity.
  - simpl in Hp. apply andb_prop in Hp as [Hx Hp].
    apply negb_true_iff in Hx. simpl. rewrite Hx.
    now rewrite (IH (fun r => cur (String x r)) Hp).
Qed.

(** The lines of the text that lists one name per line are the names. *)
Lemma lines_unlines (ps : list string) :
  ps <> [] -> forallb Sh.no_newline ps = true ->
  Sh.lines (Sh.unlines ps) = ps.
Proof.
  induction ps as [|p ps IH]; [congruence |].
  intros _ H. simpl in H. apply andb_prop in H as [Hp Hps].
  destruct ps as [|q ps].
  - apply lines_from_last, Hp.
  - unfold Sh.lines, Sh.unlines in *.
    change (Sh.join (String Sh.nl "") (p :: q :: ps))
      with (p +:+ String Sh.nl "" +:+ Sh.join (String Sh.nl "") (q :: ps)).
    rewrite append_cons, append_nil_l, lines_from_line by exact Hp.
    f_equal. apply IH; [discriminate | exact Hps].
Qed.

Lemma existsb_perm {A} (f : A -> bool) (l l' : list A) :
  Permutation l l' -> existsb f l = existsb f l'.
Proof.
  intros HP. apply eq_true_iff_eq. rewrite !existsb_exists.
  split; intros [x [Hin Hf]]; exists x; split; auto.
  - eapply Permutation_in; eauto.
  - eapply Permutation_in; [apply Permutation_sym |]; eauto.
Qed.

End StringFacts.

(** ** The loop of [set-matrix] is a filter over the registry *)

Section DetectFacts.

Lemma dir_changed_matched (changed dir : string) :
  Detect.dir_changed changed dir
  = Spec.matched (Detect.changed_paths changed) dir.
Proof. reflexivity. Qed.

Lemma loop_acc (changed : string) (dirs acc : list string) :
  fold_left (Detect.loop_body changed) dirs acc
  = acc ++ map Detect.service_json
             (List.filter (Detect.dir_changed changed) dirs).
Proof.
  revert acc; induction dirs as [|d dirs IH]; intros acc; simpl.
  - now rewrite app_nil_r.
  - rewrite IH. unfold Detect.loop_body.
    destruct (Detect.dir_changed changed d); simpl; [| reflexivity].
    now rewrite <- app_assoc.
Qed.

Lemma services_over_filter (dirs : list string) (changed : string) :
  Detect.services_over dirs changed
  = map Detect.service_json (Spec.build_matrix dirs (Detect.changed_paths changed)).
Proof. unfold Detect.services_over. now rewrite loop_acc. Qed.

Lemma services_filter (changed : string) :
  Detect.services changed
  = map Detect.service_json
      (Spec.build_matrix Workflow.registry (Detect.changed_paths changed)).
Proof. apply services_over_filter. Qed.

Lemma matched_iff (paths : list string) (entry : string) :
  Spec.matched paths entry = true
  <-> exists p, In p paths /\ exists rest, p = entry +:+ "/" +:+ rest.
Proof.
  unfold Spec.matched. rewrite existsb_exists.
  split; intros [p [Hin H]]; exists p; split; auto.
  - apply starts_with_inv in H as [r ->]. exists r. now rewrite append_assoc.
  - destruct H as [r ->]. rewrite <- append_assoc. apply starts_with_app.
Qed.

Lemma build_matrix_in (registry paths : list string) (entry : string) :
  In entry (Spec.build_matrix registry paths)
  <-> In entry registry /\ Spec.matched paths entry = true.
Proof. unfold Spec.build_matrix. apply filter_In. Qed.

Lemma build_matrix_nil (registry paths : list string) :
  Spec.build_matrix registry paths = []
  <-> forall e, In e registry -> Spec.matched paths e = false.
Proof.
  unfold Spec.build_matrix. induction registry as [|d ds IH]; simpl.
  - split; [intros _ e [] | reflexivity].
  - destruct (Spec.matched paths d) eqn:E.
    + split; [discriminate |]. intros H. specialize (H d (or_introl eq_refl)).
      congruence.
    + rewrite IH. split.
      * intros H e [<- | Hin]; auto.
      * intros H e Hin. apply H. now right.
Qed.

Lemma build_matrix_perm (registry ps qs : list string) :
  Permutation ps qs ->
  Spec.build_matrix registry ps = Spec.build_matrix registry qs.
Proof.
  intros HP. unfold Spec.build_matrix. apply filter_ext. intros e.
  unfold Spec.matched. now apply existsb_perm.
Qed.

End DetectFacts.

(** ** The matrix text read back by [fromJson] *)

Section JsonFacts.

Lemma length_append (a b : string) :
  String.length (a +:+ b) = String.length a + String.length b.
Proof.
  induction a as [|x a IH]; [reflexivity |].
  rewrite append_cons. simpl. now rewrite IH.
Qed.

Lemma read_string_app (d r : string) :
  Json.plain d = true ->
  Json.read_string (d +:+ String Sh.dq r) = Some (d, r).
Proof.
  induction d as [|c d IH]; intros Hp.
  - reflexivity.
  - simpl in Hp. apply andb_prop in Hp as [Hc Hd].
    apply andb_prop in Hc as [Hq Hb].
    rewrite append_cons. simpl.
    apply negb_true_iff in Hq, Hb. rewrite Hq, Hb.
    now rewrite (IH Hd).
Qed.

Lemma service_json_app (d rest : string) :
  Detect.service_json d +:+ rest
  = Json.item_open +:+ (d +:+ String Sh.dq (String "}" rest)).
Proof.
  unfold Detect.service_json, Json.item_open.
  rewrite !append_assoc. reflexivity.
Qed.

Lemma service_json_head (d : string) :
  exists t, Detect.service_json d = String "{" t.
Proof. eexists. reflexivity. Qed.

Lemma join_cons2 (sep a b : string) (l : list string) :
  Sh.join sep (a :: b :: l) = a +:+ sep +:+ Sh.join sep (b :: l).
Proof. reflexivity. Qed.

Lemma read_items_S (fuel : nat) (s : string) :
  Json.read_items (S fuel) s
  = match Sh.strip_prefix Json.item_open s with
    | None => None
    | Some s1 =>
        match Json.read_string s1 with
        | None => None
        | Some (dir, s2) =>
            match s2 with
            | String "}" (String "," s3) =>
                match Json.read_items fuel s3 with
                | Some rest => Some (dir :: rest)
                | None => None
                end
            | String "}" (String "]" (String "}" EmptyString)) => Some [dir]
            | _ => None
            end
        end
    end.
Proof. reflexivity. Qed.

Lemma read_items_join (ds : list string) :
  ds <> [] ->
  forallb Json.plain ds = true ->
  forall fuel, length ds <= fuel ->
  Json.read_items fuel (Sh.join "," (map Detect.service_json ds) +:+ "]}")
  = Some ds.
Proof.
  induction ds as [|d ds IH]; [congruence |].
  intros _ Hp fuel Hf. simpl in Hp. apply andb_prop in Hp as [Hd Hds].
  destruct fuel as [|fuel]; [simpl in Hf; lia |].
  destruct ds as [|d2 ds].
  - simpl map. simpl Sh.join. rewrite service_json_app.
    rewrite read_items_S, strip_prefix_app, read_string_app by assumption.
    reflexivity.
  - simpl map. rewrite join_cons2, !append_assoc, service_json_app.
    rewrite read_items_S, strip_prefix_app, read_string_app by assumption.
    rewrite append_cons, append_nil_l.
    change (map Detect.service_json (d2 :: ds))
      with (Detect.service_json d2 :: map Detect.service_json ds) in IH.
    rewrite IH; [reflexivity | discriminate | assumption | simpl in *; lia].
Qed.

Lemma length_join_items (ds : list string) (t : string) :
  length ds
  <= String.length (Sh.join "," (map Detect.service_json ds) +:+ t).
Proof.
  induction ds as [|d ds IH]; [simpl; lia |].
  destruct ds as [|d2 ds].
  - simpl map. simpl Sh.join.
    destruct (service_json_head d) as [u ->]. rewrite append_cons.
    simpl. lia.
  - simpl map. rewrite join_cons2, !append_assoc.
    rewrite (length_append (Detect.service_json d)).
    rewrite (length_append ","). simpl map in IH.
    simpl length in *. simpl (String.length ","). lia.
Qed.

Lemma matrix_of_nil : Detect.matrix_of [] = Workflow.empty_matrix.
Proof. reflexivity. Qed.

Lemma matrix_of_cons (x : string) (l : list string) :
  Detect.matrix_of (x :: l)
  = Json.matrix_open +:+ (Sh.join "," (x :: l) +:+ "]}").
Proof.
  unfold Detect.matrix_of. simpl Nat.ltb. cbv iota.
  now rewrite append_assoc.
Qed.

Lemma join_items_head (d : string) (ds : list string) (t : string) :
  exists u,
    Sh.join "," (map Detect.service_json (d :: ds)) +:+ t = String "{" u.
Proof.
  destruct (service_json_head d) as [u Hu].
  destruct ds as [|d2 ds]; simpl map.
  - simpl Sh.join. rewrite Hu, append_cons. eauto.
  - rewrite join_cons2, !append_assoc, Hu, append_cons. eauto.
Qed.

Lemma from_json_matrix_of (ds : list string) :
  forallb Json.plain ds = true ->
  Json.from_json (Detect.matrix_of (map Detect.service_json ds)) = Some ds.
Proof.
  intros Hp. destruct ds as [|d ds]; [reflexivity |].
  change (map Detect.service_json (d :: ds))
    with (Detect.service_json d :: map Detect.service_json ds).
  rewrite matrix_of_cons. unfold Json.from_json. rewrite strip_prefix_app.
  change (Detect.service_json d :: map Detect.service_json ds)
    with (map Detect.service_json (d :: ds)).
  pose proof (read_items_join (d :: ds) ltac:(discriminate) Hp _
                (length_join_items (d :: ds) "]}")) as HR.
  destruct (join_items_head d ds "]}") as [u Hu].
  rewrite Hu in *. exact HR.
Qed.

Lemma if_matrix_of_cons (d : string) (l : list string) :
  Run.build_and_push_if (Detect.matrix_of (Detect.service_json d :: l)) = true.
Proof.
  unfold Run.build_and_push_if. rewrite matrix_of_cons.
  destruct l as [|y l].
  - simpl Sh.join. rewrite service_json_app. reflexivity.
  - rewrite join_cons2, !append_assoc, service_json_app. reflexivity.
Qed.

Lemma registry_plain : forallb Json.plain Workflow.registry = true.
Proof. reflexivity. Qed.

Lemma registry_bre_plain : forallb Sh.bre_plain Workflow.registry = true.
Proof. reflexivity. Qed.

Lemma registry_one_word : forallb Sh.one_word Workflow.registry = true.
Proof. reflexivity. Qed.

Lemma forallb_filter {A} (f g : A -> bool) (l : list A) :
  forallb f l = true -> forallb f (List.filter g l) = true.
Proof.
  induction l as [|x l IH]; simpl; [reflexivity |].
  intros H. apply andb_prop in H as [Hx Hl].
  destruct (g x); simpl; [rewrite Hx |]; auto.
Qed.

(** The units of [build-and-push] are the matched registry entries. *)
Lemma spawn_set_matrix (changed : string) :
  Run.spawn (Detect.set_matrix changed)
  = Some (Spec.build_matrix Workflow.registry (Detect.changed_paths changed)).
Proof.
  unfold Detect.set_matrix, Run.spawn. rewrite services_filter.
  pose proof (forallb_filter Json.plain
                (Spec.matched (Detect.changed_paths changed))
                _ registry_plain) as Hp.
  fold (Spec.build_matrix Workflow.registry (Detect.changed_paths changed)) in Hp.
  destruct (Spec.build_matrix Workflow.registry (Detect.changed_paths changed))
    as [|d ds] eqn:E.
  - reflexivity.
  - change (map Detect.service_json (d :: ds))
      with (Detect.service_json d :: map Detect.service_json ds).
    rewrite if_matrix_of_cons.
    change (Detect.service_json d :: map Detect.service_json ds)
      with (map Detect.service_json (d :: ds)).
    now apply from_json_matrix_of.
Qed.

End JsonFacts.

(** ** Properties of the matrix *)

Section MatrixFacts.

Lemma append_length_cancel (a b s : string) :
  a +:+ s = b +:+ s -> a = b.
Proof.
  revert b; induction a as [|x a IH]; intros [|y b] H.
  - reflexivity.
  - apply (f_equal String.length) in H.
    rewrite append_nil_l, append_cons in H. simpl in H.
    rewrite length_append in H. lia.
  - apply (f_equal String.length) in H.
    rewrite append_nil_l, append_cons in H. simpl in H.
    rewrite length_append in H. lia.
  - rewrite !append_cons in H. injection H as -> H. f_equal. now apply IH.
Qed.

Lemma append_prefix_cancel (p a b : string) :
  p +:+ a = p +:+ b -> a = b.
Proof.
  induction p as [|x p IH]; intros H; [exact H |].
  rewrite !append_cons in H. injection H as H. now apply IH.
Qed.

Lemma service_json_inj (a b : string) :
  Detect.service_json a = Detect.service_json b -> a = b.
Proof.
  intros H.
  pose proof (f_equal (fun x => x +:+ "") H) as H'. simpl in H'.
  rewrite !service_json_app in H'.
  apply append_prefix_cancel in H'.
  now apply append_length_cancel in H'.
Qed.

Lemma in_services_iff (changed entry : string) :
  In (Detect.service_json entry) (Detect.services changed)
  <-> In entry (Spec.build_matrix Workflow.registry
                  (Detect.changed_paths changed)).
Proof.
  rewrite services_filter, in_map_iff. split.
  - intros [x [Hx Hin]]. apply service_json_inj in Hx. now subst.
  - intros H. now exists entry.
Qed.

Lemma events_on_no_unit w cfg es f :
  Run.units f = [] -> Run.run_events w cfg es f = f.
Proof.
  intros Hf. induction es as [|e es IH]; [reflexivity |].
  unfold Run.run_events in *. simpl.
  assert (Run.step w cfg e f = f) as ->; [| exact IH].
  destruct e as [i|i]; unfold Run.step; rewrite Hf; reflexivity.
Qed.

Lemma no_match_no_service (changed : string) :
  (forall e p, In e Workflow.registry ->
               In p (Detect.changed_paths changed) ->
               Sh.starts_with (e +:+ "/") p = false) ->
  Detect.services changed = [].
Proof.
  intros H. rewrite services_filter.
  replace (Spec.build_matrix Workflow.registry (Detect.changed_paths changed))
    with (@nil string); [reflexivity |].
  symmetry. apply build_matrix_nil. intros e He.
  unfold Spec.matched. apply not_true_is_false. intros HE.
  apply existsb_exists in HE as [p [Hp Hs]].
  rewrite (H e p He Hp) in Hs. discriminate.
Qed.

Lemma no_service_no_matrix (changed : string) :
  Detect.services changed = [] ->
  Detect.set_matrix changed = Workflow.empty_matrix /\
  Run.build_and_push_if (Detect.set_matrix changed) = false /\
  Run.spawn (Detect.set_matrix changed) = Some [].
Proof.
  intros H.
  assert (Detect.set_matrix changed = Workflow.empty_matrix) as Hm
    by (unfold Detect.set_matrix; now rewrite H).
  rewrite Hm. repeat split.
Qed.

Lemma no_service_no_unit w cfg changed store0 hub0 schedule :
  Detect.services changed = [] ->
  exists f,
    Run.run w cfg changed store0 hub0 schedule = Some f /\
    Run.units f = [] /\
    Run.store f = store0 /\
    Run.registry_tags f = hub0 /\
    Run.conclude f = Run.RunSuccess.
Proof.
  intros H. destruct (no_service_no_matrix _ H) as [_ [_ Hsp]].
  unfold Run.run. rewrite Hsp.
  eexists. split; [reflexivity |].
  rewrite events_on_no_unit by reflexivity.
  repeat split.
Qed.

Lemma any_suffix (s : string) :
  Trigger.glob_match [Trigger.GStarStar] s = true.
Proof.
  induction s as [|c s IH]; [reflexivity |].
  simpl in *. exact IH.
Qed.

Lemma release_pattern (p : string) :
  Sh.starts_with "release/" p = true ->
  Trigger.path_matches "release/**" p = true.
Proof.
  intros H. apply starts_with_inv in H as [r ->].
  unfold Trigger.path_matches.
  change (Trigger.glob_match [Trigger.GStarStar] r = true).
  apply any_suffix.
Qed.

Lemma release_not_watched (p e : string) :
  Sh.starts_with "release/" p = true ->
  In e Workflow.registry ->
  Sh.starts_with (e +:+ "/") p = false.
Proof.
  intros H He. apply starts_with_inv in H as [r ->].
  unfold Workflow.registry in He. simpl in He.
  repeat (destruct He as [<- | He]; [reflexivity |]). destruct He.
Qed.

End MatrixFacts.

(** Listing the same changed paths in another order gives the same
    matrix text. *)
Lemma set_matrix_of_permuted_list (ps qs : list string) :
  Permutation ps qs ->
  forallb Sh.no_newline ps = true ->
  Detect.set_matrix (Sh.unlines ps) = Detect.set_matrix (Sh.unlines qs).
Proof.
  intros HP Hps.
  destruct ps as [|p ps].
  - apply Permutation_nil in HP. now subst.
  - assert (qs <> []) as Hq.
    { intros ->. apply Permutation_sym, Permutation_nil in HP. discriminate. }
    assert (forallb Sh.no_newline qs = true) as Hqs.
    { apply forallb_forall. intros x Hx.
      rewrite forallb_forall in Hps. apply Hps.
      eapply Permutation_in; [apply Permutation_sym |]; eauto. }
    unfold Detect.set_matrix. rewrite !services_filter.
    unfold Detect.changed_paths.
    rewrite !lines_unlines by (assumption || discriminate).
    now rewrite (build_matrix_perm _ _ _ HP).
Qed.

(** C1. For every text of changed paths and every entry of the registry,
    the entry is a unit of the build matrix (equivalently, its element is
    in the array [services]) if and only if some changed path is the
    entry's path, the separator [/] and a remainder.  A changed path that
    only shares the entry's characters without the separator
    ([src/cartservice-extra/x], [src/cartservice2/x] against
    [src/cartservice]) gives an empty matrix. *)
Theorem matrix_membership (changed entry : string) :
  In entry Workflow.registry ->
  exists matrix,
    Run.spawn (Detect.set_matrix changed) = Some matrix /\
    (In (Detect.service_json entry) (Detect.services changed)
     <-> In entry matrix) /\
    (In entry matrix
     <-> exists p, In p (Detect.changed_paths changed) /\
                   exists rest, p = entry +:+ "/" +:+ rest) /\
    Run.spawn (Detect.set_matrix "src/cartservice-extra/x") = Some [] /\
    Run.spawn (Detect.set_matrix "src/cartservice2/x") = Some [].
Proof.
  intros He. eexists. split; [apply spawn_set_matrix |].
  split; [apply in_services_iff |].
  split; [| split; reflexivity].
  rewrite build_matrix_in, matched_iff. tauto.
Qed.

Lemma matrix_membership_witness :
  exists matrix,
    Run.spawn (Detect.set_matrix "src/frontend/static/x.css") = Some matrix /\
    (In (Detect.service_json "src/frontend")
        (Detect.services "src/frontend/static/x.css")
     <-> In "src/frontend" matrix) /\
    (In "src/frontend" matrix
     <-> exists p, In p (Detect.changed_paths "src/frontend/static/x.css") /\
                   exists rest, p = "src/frontend" +:+ "/" +:+ rest) /\
    Run.spawn (Detect.set_matrix "src/cartservice-extra/x") = Some [] /\
    Run.spawn (Detect.set_matrix "src/cartservice2/x") = Some [].
Proof.
  apply (matrix_membership "src/frontend/static/x.css" "src/frontend").
  simpl. left. reflexivity.
Defined.

(** C4. The build matrix is the registry, in the registry's order,
    restricted to the matched entries; two texts whose changed paths are
    permutations of each other give the same matrix text. *)
Theorem matrix_order (c1 c2 : string) :
  Permutation (Detect.changed_paths c1) (Detect.changed_paths c2) ->
  Run.spawn (Detect.set_matrix c1)
  = Some (List.filter (Spec.matched (Detect.changed_paths c1))
                      Workflow.registry) /\
  Detect.services c1
  = map Detect.service_json
        (List.filter (Spec.matched (Detect.changed_paths c1))
                     Workflow.registry) /\
  Detect.set_matrix c1 = Detect.set_matrix c2.
Proof.
  intros HP. split; [apply spawn_set_matrix |].
  split; [apply services_filter |].
  unfold Detect.set_matrix. rewrite !services_filter.
  now rewrite (build_matrix_perm _ _ _ HP).
Qed.

Lemma matrix_order_witness :
  let c1 := Sh.unlines ["src/paymentservice/server.js"; "README.md";
                        "src/cartservice/main.go"] in
  let c2 := Sh.unlines ["src/cartservice/main.go";
                        "src/paymentservice/server.js"; "README.md"] in
  Run.spawn (Detect.set_matrix c1)
  = Some (List.filter (Spec.matched (Detect.changed_paths c1))
                      Workflow.registry) /\
  Detect.services c1
  = map Detect.service_json
        (List.filter (Spec.matched (Detect.changed_paths c1))
                     Workflow.registry) /\
  Detect.set_matrix c1 = Detect.set_matrix c2.
Proof.
  apply (matrix_order
           (Sh.unlines ["src/paymentservice/server.js"; "README.md";
                        "src/cartservice/main.go"])
           (Sh.unlines ["src/cartservice/main.go";
                        "src/paymentservice/server.js"; "README.md"])).
  change (Permutation
            ["src/paymentservice/server.js"; "README.md";
             "src/cartservice/main.go"]
            ["src/cartservice/main.go"; "src/paymentservice/server.js";
             "README.md"]).
  apply Permutation_sym.
  exact (Permutation_cons_append ["src/paymentservice/server.js"; "README.md"]
                                 "src/cartservice/main.go").
Defined.

(** C5. An empty diff (base equal to head) and a diff with no path under
    a watched directory both leave the array [services] empty; and
    whenever the array is empty the matrix text is the literal of the job
    condition, the job [build-and-push] is skipped, no unit exists under
    any schedule, the cache entries and the registry are as before, and
    the run concludes with success. *)
Theorem empty_matrix_skips :
  Detect.services "" = [] /\
  (forall changed,
     (forall e p, In e Workflow.registry ->
                  In p (Detect.changed_paths changed) ->
                  Sh.starts_with (e +:+ "/") p = false) ->
     Detect.services changed = []) /\
  (forall w cfg changed store0 hub0 schedule,
     Detect.services changed = [] ->
     Detect.set_matrix changed = Workflow.empty_matrix /\
     Run.build_and_push_if (Detect.set_matrix changed) = false /\
     Run.spawn (Detect.set_matrix changed) = Some [] /\
     exists f,
       Run.run w cfg changed store0 hub0 schedule = Some f /\
       Run.units f = [] /\
       Run.store f = store0 /\
       Run.registry_tags f = hub0 /\
       Run.conclude f = Run.RunSuccess).
Proof.
  split; [reflexivity |]. split.
  - apply no_match_no_service.
  - intros w cfg changed store0 hub0 schedule H.
    destruct (no_service_no_matrix _ H) as [Hm [Hif Hsp]].
    repeat (split; [assumption |]). now apply no_service_no_unit.
Qed.

Lemma empty_matrix_skips_witness :
  Detect.set_matrix "README.md" = Workflow.empty_matrix /\
  Run.build_and_push_if (Detect.set_matrix "README.md") = false /\
  Run.spawn (Detect.set_matrix "README.md") = Some [] /\
  exists f,
    Run.run {| Build.is_file := fun _ => true;
               Build.account_ok := fun _ _ => true;
               Build.engine := fun _ _ _ => Build.BuildxError |}
            {| Run.head_sha := "0123456789abcdef";
               Run.docker_username := "kodenops";
               Run.cicd_dockerhub := "token" |}
            "README.md" [] ∅ [Run.Start 0; Run.Finish 0] = Some f /\
    Run.units f = [] /\
    Run.store f = [] /\
    Run.registry_tags f = ∅ /\
    Run.conclude f = Run.RunSuccess.
Proof.
  apply (proj2 (proj2 empty_matrix_skips)).
  apply (proj1 (proj2 empty_matrix_skips)).
  intros e p He Hp. simpl in Hp. destruct Hp as [<- | []].
  unfold Workflow.registry in He. simpl in He.
  repeat (destruct He as [<- | He]; [reflexivity |]). destruct He.
Defined.

(** C10. When every changed path lies under [release/], the push starts
    the workflow ([release/**] is one of the trigger's patterns), the loop
    over the registry matches no entry, the matrix text is the empty
    matrix, [build-and-push] is skipped and, under any schedule, no unit
    runs and the registry is left as it was. *)
Theorem release_only_builds_nothing (changed : string) :
  (forall p, In p (Detect.changed_paths changed) ->
             Sh.starts_with "release/" p = true) ->
  Trigger.push_triggers (Detect.changed_paths changed) = true /\
  In "release/**" Workflow.push_paths /\
  Detect.services changed = [] /\
  Detect.set_matrix changed = Workflow.empty_matrix /\
  Run.spawn (Detect.set_matrix changed) = Some [] /\
  forall w cfg store0 hub0 schedule,
    exists f,
      Run.run w cfg changed store0 hub0 schedule = Some f /\
      Run.units f = [] /\ Run.registry_tags f = hub0.
Proof.
  intros H.
  assert (Detect.services changed = []) as Hs.
  { apply no_match_no_service.
    intros e p He Hp. apply release_not_watched; auto. }
  split.
  { unfold Trigger.push_triggers. apply existsb_exists.
    destruct (Detect.changed_paths changed) as [|p ps] eqn:E.
    - now apply lines_nonempty in E.
    - exists p. split; [now left |].
      apply existsb_exists. exists "release/**". split.
      + unfold Workflow.push_paths. simpl. tauto.
      + apply release_pattern, H. now left. }
  split; [unfold Workflow.push_paths; simpl; tauto |].
  split; [exact Hs |].
  destruct (no_service_no_matrix _ Hs) as [Hm [_ Hsp]].
  split; [exact Hm |]. split; [exact Hsp |].
  intros w cfg store0 hub0 schedule.
  destruct (no_service_no_unit w cfg changed store0 hub0 schedule Hs)
    as [f [Hf [Hu [_ [Hh _]]]]].
  exists f. auto.
Qed.

(** ** One unit: the script and the job *)

Section UnitFacts.

Variable w : Build.world.
Variable c : Build.context.

(** The script is the ordered search of the specification followed by
    the one build command. *)
Lemma build_script_resolve :
  Build.build_script w c
  = match Spec.resolve (Build.is_file w) (Build.SERVICE c) with
    | Some d => Build.Runs (Build.command_for c d)
    | None =>
        Build.Exit1 (Build.cross_mark +:+ " Dockerfile not found for "
                       +:+ Build.SERVICE c)
    end.
Proof.
  unfold Build.build_script, Spec.resolve, Spec.candidates. simpl.
  destruct (Build.is_file w (Build.SERVICE c +:+ "/Dockerfile")) eqn:E1;
    simpl.
  - rewrite E1. reflexivity.
  - destruct (Build.is_file w (Build.SERVICE c +:+ "/src/Dockerfile"));
      reflexivity.
Qed.

Lemma restored_tmp store h :
  Build.tmp (Build.cache_restore c (Build.fresh store h))
    !! Workflow.cache_path
  = Build.imported c store.
Proof.
  unfold Build.cache_restore, Build.imported, Build.fresh. simpl.
  destruct (Build.cache_lookup c store) as [[k b]|]; simpl.
  - apply lookup_insert_eq.
  - apply lookup_empty.
Qed.

Lemma restored_hub store h :
  Build.hub (Build.cache_restore c (Build.fresh store h)) = h.
Proof.
  unfold Build.cache_restore, Build.fresh. simpl.
  now destruct (Build.cache_lookup c store) as [[k b]|].
Qed.

Lemma restored_store store h :
  Build.cache_store (Build.cache_restore c (Build.fresh store h)) = store.
Proof.
  unfold Build.cache_restore, Build.fresh. simpl.
  now destruct (Build.cache_lookup c store) as [[k b]|].
Qed.

(** The four ways a unit ends. *)
Lemma run_unit_login_fails store h :
  Build.login_ok w c = false ->
  Build.run_unit w c store h
  = (Build.cache_restore c (Build.fresh store h),
     [Build.Checkout; Build.SetUpBuildx; Build.CacheLayers; Build.LogIn],
     Build.Failure Build.LogIn).
Proof.
  intros H. unfold Build.run_unit, Build.steps. simpl. now rewrite H.
Qed.

Lemma run_unit_no_descriptor store h :
  Build.login_ok w c = true ->
  Spec.resolve (Build.is_file w) (Build.SERVICE c) = None ->
  Build.run_unit w c store h
  = (Build.with_logged_in true
       (Build.cache_restore c (Build.fresh store h)),
     Build.steps, Build.Failure Build.BuildAndPush).
Proof.
  intros H Hr. unfold Build.run_unit, Build.steps. simpl.
  rewrite H, build_script_resolve, Hr. reflexivity.
Qed.

Lemma run_unit_engine_error store h d :
  Build.login_ok w c = true ->
  Spec.resolve (Build.is_file w) (Build.SERVICE c) = Some d ->
  Build.engine w (Spec.dockerfile_path d) (Spec.context_path d)
               (Build.imported c store) = Build.BuildxError ->
  Build.run_unit w c store h
  = (Build.with_logged_in true
       (Build.cache_restore c (Build.fresh store h)),
     Build.steps, Build.Failure Build.BuildAndPush).
Proof.
  intros H Hr He. unfold Build.run_unit, Build.steps. simpl.
  rewrite H, build_script_resolve, Hr.
  unfold Build.docker_buildx_build. simpl.
  change Workflow.cache_from_src with Workflow.cache_path.
  rewrite restored_tmp, He. reflexivity.
Qed.

Lemma run_unit_built store h d image exported :
  Build.login_ok w c = true ->
  Spec.resolve (Build.is_file w) (Build.SERVICE c) = Some d ->
  Build.engine w (Spec.dockerfile_path d) (Spec.context_path d)
               (Build.imported c store) = Build.Built image exported ->
  Build.run_unit w c store h
  = (Build.cache_save c
       (Build.with_tmp
          (<[Workflow.cache_to_dest := exported]>
             (Build.tmp (Build.cache_restore c (Build.fresh store h))))
          (Build.with_hub
             (<[Build.sha_tag c := image]> (<[Build.latest_tag c := image]> h))
             (Build.with_logged_in true
                (Build.cache_restore c (Build.fresh store h))))),
     Build.steps, Build.Success).
Proof.
  intros H Hr He. unfold Build.run_unit, Build.steps. simpl.
  rewrite H, build_script_resolve, Hr.
  unfold Build.docker_buildx_build. simpl.
  change Workflow.cache_from_src with Workflow.cache_path.
  rewrite restored_tmp, He. simpl. rewrite restored_hub. reflexivity.
Qed.

(** Every unit ends in one of the four ways. *)
Lemma run_unit_end store h :
  Build.unit_end w c store h (Build.run_unit w c store h).
Proof.
  destruct (Build.login_ok w c) eqn:HL.
  - destruct (Spec.resolve (Build.is_file w) (Build.SERVICE c))
      as [d|] eqn:Hr.
    + destruct (Build.engine w (Spec.dockerfile_path d)
                  (Spec.context_path d) (Build.imported c store))
        as [image exported|] eqn:He.
      * rewrite (run_unit_built _ _ _ _ _ HL Hr He).
        now apply (Build.end_built _ _ _ _ d).
      * rewrite (run_unit_engine_error _ _ _ HL Hr He).
        now apply (Build.end_engine_error _ _ _ _ d).
    + rewrite (run_unit_no_descriptor _ _ HL Hr).
      now apply Build.end_no_descriptor.
  - rewrite (run_unit_login_fails _ _ HL). now apply Build.end_login.
Qed.

(** A unit that fails leaves the registry and the cache entries alone. *)
Lemma run_unit_failure_keeps store h st tr s :
  Build.run_unit w c store h = (st, tr, Build.Failure s) ->
  Build.hub st = h /\ Build.cache_store st = store.
Proof.
  destruct (run_unit_end store h); intros Hend; try discriminate;
    injection Hend as <- _ _; simpl;
    now rewrite restored_hub, restored_store.
Qed.

End UnitFacts.

Section PathFacts.

Lemma take_chars_length (n : nat) (s : string) :
  String.length (Sh.take_chars n s) = Nat.min n (String.length s).
Proof.
  revert s; induction n as [|n IH]; intros [|x s]; simpl; auto.
Qed.

Lemma take_chars_prefix (n : nat) (s : string) :
  Sh.starts_with (Sh.take_chars n s) s = true.
Proof.
  revert s; induction n as [|n IH]; intros [|x s]; simpl; auto.
  now rewrite Ascii.eqb_refl, IH.
Qed.

Lemma drop_trailing_no_slash (s : string) :
  Sh.no_slash s = true -> Sh.drop_trailing_slashes s = s.
Proof.
  induction s as [|x s IH]; [reflexivity |].
  simpl. intros H. apply andb_prop in H as [Hx Hs].
  rewrite (IH Hs). apply negb_true_iff in Hx.
  destruct s; [now rewrite Hx | reflexivity].
Qed.

Lemma drop_trailing_app (a name : string) :
  Sh.segment name = true ->
  Sh.drop_trailing_slashes (a +:+ name) = a +:+ name.
Proof.
  intros Hn. induction a as [|x a IH].
  - rewrite append_nil_l. apply drop_trailing_no_slash.
    now destruct name.
  - rewrite append_cons. simpl. rewrite IH.
    destruct (a +:+ name) eqn:E; [| reflexivity].
    apply (f_equal String.length) in E. rewrite length_append in E.
    destruct name; [discriminate | simpl in E; lia].
Qed.

Lemma no_slash_existsb (s : string) :
  Sh.no_slash s = true ->
  existsb (Ascii.eqb Sh.slash) (list_ascii_of_string s) = false.
Proof.
  induction s as [|y s IH]; [reflexivity |].
  intros H. simpl in H. apply andb_prop in H as [Hy Hs].
  apply negb_true_iff in Hy. rewrite Ascii.eqb_sym in Hy.
  change (list_ascii_of_string (String y s))
    with (y :: list_ascii_of_string s).
  change ((Ascii.eqb Sh.slash y
           || existsb (Ascii.eqb Sh.slash) (list_ascii_of_string s)) = false).
  now rewrite Hy, IH.
Qed.

Lemma last_segment_segment (name : string) :
  Sh.no_slash name = true -> Sh.last_segment name = name.
Proof.
  destruct name as [|x name]; [reflexivity |].
  intros H. pose proof H as H'. simpl in H'.
  apply andb_prop in H' as [Hx Hs]. apply negb_true_iff in Hx.
  change (Sh.last_segment (String x name))
    with (if Ascii.eqb x Sh.slash then Sh.last_segment name
          else if existsb (Ascii.eqb Sh.slash) (list_ascii_of_string name)
               then Sh.last_segment name else String x name).
  now rewrite Hx, (no_slash_existsb _ Hs).
Qed.

Lemma slash_in_app (a b : string) :
  existsb (Ascii.eqb Sh.slash)
          (list_ascii_of_string (a +:+ String Sh.slash b)) = true.
Proof.
  induction a as [|x a IH].
  - reflexivity.
  - rewrite append_cons.
    change (list_ascii_of_string (String x (a +:+ String Sh.slash b)))
      with (x :: list_ascii_of_string (a +:+ String Sh.slash b)).
    change ((Ascii.eqb Sh.slash x
             || existsb (Ascii.eqb Sh.slash)
                  (list_ascii_of_string (a +:+ String Sh.slash b))) = true).
    rewrite IH. apply orb_true_r.
Qed.

Lemma last_segment_app (dir name : string) :
  Sh.no_slash name = true ->
  Sh.last_segment (dir +:+ String Sh.slash name) = name.
Proof.
  intros Hn. induction dir as [|x dir IH].
  - rewrite append_nil_l.
    change (Sh.last_segment (String Sh.slash name))
      with (Sh.last_segment name).
    now apply last_segment_segment.
  - rewrite append_cons.
    change (Sh.last_segment (String x (dir +:+ String Sh.slash name)))
      with (if Ascii.eqb x Sh.slash
            then Sh.last_segment (dir +:+ String Sh.slash name)
            else if existsb (Ascii.eqb Sh.slash)
                      (list_ascii_of_string (dir +:+ String Sh.slash name))
                 then Sh.last_segment (dir +:+ String Sh.slash name)
                 else String x (dir +:+ String Sh.slash name)).
    rewrite IH, slash_in_app. now destruct (Ascii.eqb x Sh.slash).
Qed.

(** [basename] of a path that ends in a segment is that segment. *)
Lemma basename_segment (dir name : string) :
  Sh.segment name = true ->
  Sh.basename (dir +:+ "/" +:+ name) = name.
Proof.
  intros Hn.
  assert (Sh.no_slash name = true) as Hs by now destruct name.
  change (dir +:+ "/" +:+ name) with (dir +:+ String Sh.slash name).
  unfold Sh.basename.
  assert (Sh.drop_trailing_slashes (dir +:+ String Sh.slash name)
          = dir +:+ String Sh.slash name) as ->.
  { change (String Sh.slash name) with ("/" +:+ name).
    rewrite <- append_assoc. now apply drop_trailing_app. }
  pose proof (last_segment_app dir name Hs) as HL.
  destruct (dir +:+ String Sh.slash name) eqn:E; [| exact HL].
  apply (f_equal String.length) in E. rewrite length_append in E.
  simpl in E. lia.
Qed.

End PathFacts.

(** The script settles on the descriptor that the ordered search of the
    specification finds: [<service>/Dockerfile] with context [<service>]
    when that file exists (also when the nested one exists too), else
    [<service>/src/Dockerfile] with context [<service>/src] when that one
    exists, else none, in which case the script exits with status 1 and
    the logged-in unit fails at its build step, leaving the registry as it
    was.  The script's outcome is decided by the files at these two
    locations of the unit's own service. *)
Lemma descriptor_resolution (w : Build.world) (c : Build.context) :
  let svc := Build.SERVICE c in
  let root := {| Spec.dockerfile_path := svc +:+ "/Dockerfile";
                 Spec.context_path := svc |} in
  let nested := {| Spec.dockerfile_path := svc +:+ "/src/Dockerfile";
                   Spec.context_path := svc +:+ "/src" |} in
  Build.descriptor_of (Build.build_script w c)
  = Spec.resolve (Build.is_file w) svc /\
  Build.descriptor_of (Build.build_script w c)
  = (if Build.is_file w (svc +:+ "/Dockerfile") then Some root
     else if Build.is_file w (svc +:+ "/src/Dockerfile") then Some nested
     else None) /\
  (Build.is_file w (svc +:+ "/Dockerfile") = false ->
   Build.is_file w (svc +:+ "/src/Dockerfile") = false ->
   (exists message, Build.build_script w c = Build.Exit1 message) /\
   forall store h,
     Build.login_ok w c = true ->
     exists st,
       Build.run_unit w c store h
       = (st, Build.steps, Build.Failure Build.BuildAndPush) /\
       Build.hub st = h) /\
  (forall w',
     Build.is_file w' (svc +:+ "/Dockerfile")
     = Build.is_file w (svc +:+ "/Dockerfile") ->
     Build.is_file w' (svc +:+ "/src/Dockerfile")
     = Build.is_file w (svc +:+ "/src/Dockerfile") ->
     Build.build_script w' c = Build.build_script w c).
Proof.
  intros svc root nested.
  assert (Spec.resolve (Build.is_file w) svc
          = (if Build.is_file w (svc +:+ "/Dockerfile") then Some root
             else if Build.is_file w (svc +:+ "/src/Dockerfile")
                  then Some nested else None)) as HR.
  { unfold Spec.resolve, Spec.candidates. simpl.
    destruct (Build.is_file w (svc +:+ "/Dockerfile")); [reflexivity |].
    now destruct (Build.is_file w (svc +:+ "/src/Dockerfile")). }
  assert (Build.descriptor_of (Build.build_script w c)
          = Spec.resolve (Build.is_file w) svc) as HD.
  { rewrite build_script_resolve. fold svc.
    now destruct (Spec.resolve (Build.is_file w) svc) as [[f x]|]. }
  split; [exact HD |]. split; [now rewrite HD |]. split.
  - intros H1 H2. rewrite H1, H2 in HR. split.
    + rewrite build_script_resolve. fold svc. rewrite HR. eauto.
    + intros store h HL. eexists. split.
      * now apply run_unit_no_descriptor.
      * simpl. apply restored_hub.
  - intros w' H1 H2. rewrite !build_script_resolve. fold svc.
    unfold Spec.resolve, Spec.candidates. simpl. now rewrite H1, H2.
Qed.

(** C6. A script that reaches the build command gives it exactly two
    tags, [<namespace>/<name>:latest] and [<namespace>/<name>:<t>], where
    [<name>] is the last segment of the service path and [<t>] the first
    seven characters of the head commit; the two differ when the head has
    seven characters or more, and two runs with the same namespace,
    service name and head give the same tags. *)
Theorem image_tags (w : Build.world) (c : Build.context)
    (cmd : Build.buildx_command) :
  Build.build_script w c = Build.Runs cmd ->
  let ns := Build.DOCKER_USERNAME c in
  let name := Sh.basename (Build.SERVICE c) in
  let t := Sh.take_chars 7 (Build.GITHUB_SHA c) in
  Build.tags cmd
  = [ns +:+ "/" +:+ name +:+ ":latest"; ns +:+ "/" +:+ name +:+ ":" +:+ t] /\
  Build.push cmd = true /\
  String.length t = Nat.min 7 (String.length (Build.GITHUB_SHA c)) /\
  Sh.starts_with t (Build.GITHUB_SHA c) = true /\
  (forall dir last,
     Build.SERVICE c = dir +:+ "/" +:+ last ->
     Sh.segment last = true -> name = last) /\
  (7 <= String.length (Build.GITHUB_SHA c) ->
   ns +:+ "/" +:+ name +:+ ":latest" <> ns +:+ "/" +:+ name +:+ ":" +:+ t) /\
  (forall w' c' cmd',
     Build.build_script w' c' = Build.Runs cmd' ->
     Build.DOCKER_USERNAME c' = ns ->
     Sh.basename (Build.SERVICE c') = name ->
     Build.GITHUB_SHA c' = Build.GITHUB_SHA c ->
     Build.tags cmd' = Build.tags cmd).
Proof.
  intros H ns name t.
  assert (forall w0 c0 cmd0,
            Build.build_script w0 c0 = Build.Runs cmd0 ->
            Build.tags cmd0 = [Build.latest_tag c0; Build.sha_tag c0]
            /\ Build.push cmd0 = true) as HT.
  { intros w0 c0 cmd0 H0. rewrite build_script_resolve in H0.
    destruct (Spec.resolve (Build.is_file w0) (Build.SERVICE c0));
      [| discriminate].
    injection H0 as <-. split; reflexivity. }
  destruct (HT _ _ _ H) as [Htags Hpush].
  split; [exact Htags |]. split; [exact Hpush |].
  split; [apply take_chars_length |].
  split; [apply take_chars_prefix |].
  split.
  { intros dir last Hs Hl. unfold name. rewrite Hs.
    now apply basename_segment. }
  split.
  { intros Hlen E.
    do 3 apply append_prefix_cancel in E.
    apply (f_equal String.length) in E. unfold t in E.
    rewrite length_append, take_chars_length in E.
    change (String.length ":latest") with 7 in E.
    change (String.length ":") with 1 in E. lia. }
  intros w' c' cmd' H' Hns Hname Hsha.
  destruct (HT _ _ _ H') as [Htags' _]. rewrite Htags', Htags.
  unfold Build.latest_tag, Build.sha_tag.
  now rewrite Hns, Hname, Hsha.
Qed.

Lemma image_tags_witness :
  let c := Scenario.frontend in
  let cmd := Build.command_for c
               {| Spec.dockerfile_path := "src/frontend/Dockerfile";
                  Spec.context_path := "src/frontend" |} in
  let ns := Build.DOCKER_USERNAME c in
  let name := Sh.basename (Build.SERVICE c) in
  let t := Sh.take_chars 7 (Build.GITHUB_SHA c) in
  Build.tags cmd
  = [ns +:+ "/" +:+ name +:+ ":latest"; ns +:+ "/" +:+ name +:+ ":" +:+ t] /\
  Build.push cmd = true /\
  String.length t = Nat.min 7 (String.length (Build.GITHUB_SHA c)) /\
  Sh.starts_with t (Build.GITHUB_SHA c) = true /\
  (forall dir last,
     Build.SERVICE c = dir +:+ "/" +:+ last ->
     Sh.segment last = true -> name = last) /\
  (7 <= String.length (Build.GITHUB_SHA c) ->
   ns +:+ "/" +:+ name +:+ ":latest" <> ns +:+ "/" +:+ name +:+ ":" +:+ t) /\
  (forall w' c' cmd',
     Build.build_script w' c' = Build.Runs cmd' ->
     Build.DOCKER_USERNAME c' = ns ->
     Sh.basename (Build.SERVICE c') = name ->
     Build.GITHUB_SHA c' = Build.GITHUB_SHA c ->
     Build.tags cmd' = Build.tags cmd).
Proof.
  apply (image_tags Scenario.w_root Scenario.frontend). reflexivity.
Defined.

Example image_tags_frontend :
  Build.tags (Build.command_for Scenario.frontend
                {| Spec.dockerfile_path := "src/frontend/Dockerfile";
                   Spec.context_path := "src/frontend" |})
  = ["kodenops/frontend:latest"; "kodenops/frontend:0123456"].
Proof. reflexivity. Qed.

(** ** Pushing, logging in, caching *)

(** C7, as stated, fails: the registry holds the commit-derived tag of
    [src/frontend] with the digest of an earlier build; the unit builds
    another image, ends with success, and the tag now points at the new
    digest. *)
Lemma commit_tag_overwritten :
  let r := Build.run_unit Scenario.w_root Scenario.frontend []
                          Scenario.hub_before in
  Scenario.hub_before !! "kodenops/frontend:0123456" = Some "sha256:old" /\
  r.2 = Build.Success /\
  Build.hub r.1.1 !! "kodenops/frontend:0123456" = Some "sha256:new".
Proof. vm_compute. repeat split. Qed.

(** C7, amended. The one build command pushes both tags without looking
    at what the registry holds: when the login succeeds, a descriptor is
    found and the engine builds an image, the unit ends with success and
    both the [latest] tag and the commit-derived tag point at the new
    image, whatever they pointed at before; every other tag is as it
    was. *)
Theorem push_overwrites_both_tags (w : Build.world) (c : Build.context)
    (store : list (string * Build.blob)) (h : gmap string Build.digest)
    (d : Spec.descriptor) (image : Build.digest) (exported : Build.blob) :
  Build.login_ok w c = true ->
  Spec.resolve (Build.is_file w) (Build.SERVICE c) = Some d ->
  Build.engine w (Spec.dockerfile_path d) (Spec.context_path d)
               (Build.imported c store) = Build.Built image exported ->
  exists st,
    Build.run_unit w c store h = (st, Build.steps, Build.Success) /\
    Build.hub st !! Build.sha_tag c = Some image /\
    Build.hub st !! Build.latest_tag c = Some image /\
    forall t, t <> Build.sha_tag c -> t <> Build.latest_tag c ->
              Build.hub st !! t = h !! t.
Proof.
  intros HL Hr He. eexists. split; [now apply (run_unit_built w c store h d image exported) |].
  assert (forall st0, Build.hub (Build.cache_save c st0) = Build.hub st0) as Hs.
  { intros st0. unfold Build.cache_save.
    destruct (Build.cache_exact_hit c (Build.cache_store st0)); [reflexivity |].
    now destruct (Build.tmp st0 !! Workflow.cache_path). }
  rewrite Hs. simpl. split; [apply lookup_insert_eq |]. split.
  - destruct (decide (Build.sha_tag c = Build.latest_tag c)) as [E|E].
    + rewrite E. apply lookup_insert_eq.
    + rewrite lookup_insert_ne by exact E. apply lookup_insert_eq.
  - intros t H1 H2. now rewrite !lookup_insert_ne by congruence.
Qed.

Lemma push_overwrites_both_tags_witness :
  exists st,
    Build.run_unit Scenario.w_root Scenario.frontend [] Scenario.hub_before
    = (st, Build.steps, Build.Success) /\
    Build.hub st !! Build.sha_tag Scenario.frontend = Some "sha256:new" /\
    Build.hub st !! Build.latest_tag Scenario.frontend = Some "sha256:new" /\
    forall t, t <> Build.sha_tag Scenario.frontend ->
              t <> Build.latest_tag Scenario.frontend ->
              Build.hub st !! t = Scenario.hub_before !! t.
Proof.
  apply (push_overwrites_both_tags Scenario.w_root Scenario.frontend []
           Scenario.hub_before
           {| Spec.dockerfile_path := "src/frontend/Dockerfile";
              Spec.context_path := "src/frontend" |}
           "sha256:new" "layers-new"); reflexivity.
Defined.

(** C9, as stated, fails: without the two secrets the matrix of a change
    under [src/frontend] still has its unit, and that unit checks out,
    sets up the builder and restores the cache (the directory at the
    cache path now holds the restored entry) before its login step fails. *)
Lemma login_fails_inside_started_unit :
  let c := Run.context_of Scenario.cfg_no_secrets "src/frontend" in
  let r := Build.run_unit Scenario.w_root c Scenario.store_before ∅ in
  Run.spawn (Detect.set_matrix "src/frontend/main.go") = Some ["src/frontend"] /\
  Build.login_ok Scenario.w_root c = false /\
  r.1.2 = [Build.Checkout; Build.SetUpBuildx; Build.CacheLayers; Build.LogIn] /\
  r.2 = Build.Failure Build.LogIn /\
  Build.tmp r.1.1 !! Workflow.cache_path = Some "layers-old".
Proof. vm_compute. repeat split. Qed.

(** C9, amended. The login is the fourth step of every unit.  When a
    secret is absent or the registry refuses the account, the unit has
    already checked out, set up the builder and restored its cache; it
    then fails at the login step, its build step is not started, and the
    registry and the cache entries are as they were. *)
Theorem login_failure_stops_unit (w : Build.world) (c : Build.context)
    (store : list (string * Build.blob)) (h : gmap string Build.digest) :
  Build.DOCKER_USERNAME c = "" \/ Build.CICD_DOCKERHUB c = "" \/
  Build.account_ok w (Build.DOCKER_USERNAME c) (Build.CICD_DOCKERHUB c) = false ->
  exists st,
    Build.run_unit w c store h
    = (st, [Build.Checkout; Build.SetUpBuildx; Build.CacheLayers; Build.LogIn],
       Build.Failure Build.LogIn) /\
    Build.tmp st !! Workflow.cache_path = Build.imported c store /\
    Build.hub st = h /\
    Build.cache_store st = store /\
    Build.logged_in st = false.
Proof.
  intros H.
  assert (Build.login_ok w c = false) as HL.
  { unfold Build.login_ok. destruct H as [-> | [-> | ->]].
    - reflexivity.
    - simpl. now rewrite andb_false_r.
    - apply andb_false_r. }
  eexists. split; [now apply run_unit_login_fails |].
  split; [apply restored_tmp |]. split; [apply restored_hub |].
  split; [apply restored_store |].
  unfold Build.cache_restore, Build.fresh. simpl.
  now destruct (Build.cache_lookup c store) as [[k b]|].
Qed.

Lemma login_failure_stops_unit_witness :
  let c := Run.context_of Scenario.cfg_no_secrets "src/frontend" in
  exists st,
    Build.run_unit Scenario.w_root c Scenario.store_before ∅
    = (st, [Build.Checkout; Build.SetUpBuildx; Build.CacheLayers; Build.LogIn],
       Build.Failure Build.LogIn) /\
    Build.tmp st !! Workflow.cache_path
    = Build.imported c Scenario.store_before /\
    Build.hub st = ∅ /\
    Build.cache_store st = Scenario.store_before /\
    Build.logged_in st = false.
Proof.
  apply (login_failure_stops_unit Scenario.w_root
           (Run.context_of Scenario.cfg_no_secrets "src/frontend")
           Scenario.store_before ∅).
  left. reflexivity.
Defined.

Section CacheFacts.

Variable w : Build.world.
Variable c : Build.context.

Lemma cache_locations_differ :
  Workflow.cache_to_dest <> Workflow.cache_from_src
  /\ Workflow.cache_from_src = Workflow.cache_path.
Proof. split; [discriminate | reflexivity]. Qed.

Lemma cache_save_tmp st :
  Build.tmp (Build.cache_save c st) = Build.tmp st.
Proof.
  unfold Build.cache_save.
  destruct (Build.cache_exact_hit c (Build.cache_store st)); [reflexivity |].
  now destruct (Build.tmp st !! Workflow.cache_path).
Qed.

Lemma cache_save_in st k b :
  In (k, b) (Build.cache_store (Build.cache_save c st)) ->
  In (k, b) (Build.cache_store st)
  \/ (k = Build.cache_key c /\ Build.tmp st !! Workflow.cache_path = Some b).
Proof.
  unfold Build.cache_save.
  destruct (Build.cache_exact_hit c (Build.cache_store st)); [auto |].
  destruct (Build.tmp st !! Workflow.cache_path) as [b0|]; [| auto].
  simpl. intros [E | Hin]; [| auto]. injection E as <- <-. auto.
Qed.

(** Whatever the unit's end, the directory at the cache path holds what
    the restore put there: the build never writes it, and nothing moves
    the exported cache onto it. *)
Lemma durable_cache_is_restored store h :
  Build.tmp (Build.run_unit w c store h).1.1 !! Workflow.cache_path
  = Build.imported c store.
Proof.
  destruct (run_unit_end w c store h); simpl;
    rewrite ?cache_save_tmp; simpl;
    rewrite ?lookup_insert_ne by discriminate; apply restored_tmp.
Qed.

(** The only entry a unit ever adds to the cache entries holds the
    content it restored. *)
Lemma saved_cache_is_restored store h k b :
  In (k, b) (Build.cache_store (Build.run_unit w c store h).1.1) ->
  In (k, b) store
  \/ (k = Build.cache_key c /\ Build.imported c store = Some b).
Proof.
  destruct (run_unit_end w c store h); simpl;
    try (rewrite restored_store; now auto).
  intros Hin. apply cache_save_in in Hin.
  cbn [fst Build.cache_store Build.tmp Build.with_tmp Build.with_hub
       Build.with_logged_in] in Hin.
  rewrite restored_store in Hin.
  rewrite lookup_insert_ne, restored_tmp in Hin by discriminate.
  exact Hin.
Qed.

End CacheFacts.

(** C8, evaluated. A first build of [src/frontend] with no cache entry
    succeeds and exports its cache to [/tmp/.buildx-cache-new]; the
    directory at the cache path [/tmp/.buildx-cache] does not exist, so
    nothing is stored, and the build of the next commit imports no cache.
    Starting from the entry of an earlier commit, the entry stored under
    the new key holds the old content again, not the exported one. *)
Theorem exported_cache_never_promoted :
  let r1 := Build.run_unit Scenario.w_root Scenario.frontend [] ∅ in
  let r2 := Build.run_unit Scenario.w_root Scenario.frontend
                           Scenario.store_before ∅ in
  r1.2 = Build.Success /\
  Build.tmp r1.1.1 !! Workflow.cache_to_dest = Some "layers-new" /\
  Build.tmp r1.1.1 !! Workflow.cache_path = None /\
  Build.cache_store r1.1.1 = [] /\
  Build.imported Scenario.next (Build.cache_store r1.1.1) = None /\
  r2.2 = Build.Success /\
  Build.tmp r2.1.1 !! Workflow.cache_to_dest = Some "layers-new" /\
  Build.tmp r2.1.1 !! Workflow.cache_path = Some "layers-old" /\
  Build.cache_store r2.1.1
  = (Build.cache_key Scenario.frontend, "layers-old") :: Scenario.store_before /\
  Build.imported Scenario.next (Build.cache_store r2.1.1) = Some "layers-old".
Proof. vm_compute. repeat split. Qed.

(** ** The fan-out under [fail-fast] *)

Section FanOutFacts.

Variable w : Build.world.
Variable cfg : Run.settings.

Lemma lookup_map_units (g : string * Run.status -> string * Run.status)
    (l : list (string * Run.status)) (j : nat) :
  map g l !! j = g <$> (l !! j).
Proof.
  revert j; induction l as [|x l IH]; intros [|j]; simpl; auto.
Qed.

Lemma fail_fast_is_on : Run.fail_fast = true.
Proof. reflexivity. Qed.

(** A completed unit keeps its result through every later event. *)
Lemma step_keeps_completed (e : Run.event) (f : Run.fan) j s r :
  Run.units f !! j = Some (s, Run.Completed r) ->
  Run.units (Run.step w cfg e f) !! j = Some (s, Run.Completed r).
Proof.
  intros Hj. destruct e as [i|i]; unfold Run.step.
  - destruct (Run.units f !! i) as [[s' [| |r'|]]|] eqn:Hi; auto.
    simpl. destruct (decide (i = j)) as [->|Hne]; [congruence |].
    now rewrite list_lookup_insert_ne.
  - destruct (Run.units f !! i) as [[s' [| |r'|]]|] eqn:Hi; auto.
    destruct (Build.run_unit w (Run.context_of cfg s') (Run.store f)
                (Run.registry_tags f)) as [[st tr] r'].
    simpl. destruct (decide (i = j)) as [->|Hne]; [congruence |].
    rewrite list_lookup_insert_ne by exact Hne.
    destruct (Run.is_failure r' && Run.fail_fast); [| exact Hj].
    now rewrite lookup_map_units, Hj.
Qed.

Lemma events_keep_completed (es : list Run.event) (f : Run.fan) j s r :
  Run.units f !! j = Some (s, Run.Completed r) ->
  Run.units (Run.run_events w cfg es f) !! j = Some (s, Run.Completed r).
Proof.
  revert f; induction es as [|e es IH]; intros f Hj; [exact Hj |].
  unfold Run.run_events in *. simpl. apply IH.
  now apply step_keeps_completed.
Qed.

Lemma conclude_failure (f : Run.fan) j s at_step :
  Run.units f !! j = Some (s, Run.Completed (Build.Failure at_step)) ->
  Run.conclude f = Run.RunFailure.
Proof.
  intros Hj. unfold Run.conclude.
  replace (existsb Run.failed (Run.units f)) with true; [reflexivity |].
  symmetry. apply existsb_exists.
  exists (s, Run.Completed (Build.Failure at_step)). split; [| reflexivity].
  apply list_elem_of_In. eapply list_elem_of_lookup_2. exact Hj.
Qed.

End FanOutFacts.

(** C2, as stated, fails: of the two matched services [src/cartservice]
    has no descriptor at either location; both units are in progress when
    the first one fails, and the second one is cancelled: it never
    completes, no image of it reaches the registry, and the run concludes
    with failure. *)
Lemma failure_cancels_sibling :
  let f := Run.run Scenario.w_cart_missing Scenario.cfg Scenario.changed_two
                   [] ∅ [Run.Start 0; Run.Start 1; Run.Finish 0; Run.Finish 1] in
  Run.units <$> f
  = Some [("src/cartservice", Run.Completed (Build.Failure Build.BuildAndPush));
          ("src/paymentservice", Run.Cancelled)] /\
  (Run.registry_tags <$> f) = Some ∅ /\
  Run.conclude <$> f = Some Run.RunFailure.
Proof. vm_compute. repeat split. Qed.

(** C2, amended. The strategy sets no [fail-fast], so the matrix runs
    with [fail-fast: true]: when a unit in progress ends in failure, every
    sibling that is queued or in progress is cancelled, every sibling that
    had completed keeps its result, the registry keeps the tags it held
    (the images pushed by the units that succeeded before), and the run
    concludes with failure under every continuation of the schedule. *)
Theorem failure_cancels_pending_siblings (w : Build.world)
    (cfg : Run.settings) (f : Run.fan) (i : nat) (s : string)
    (st : Build.state) (tr : list Build.step_id) (at_step : Build.step_id) :
  Run.units f !! i = Some (s, Run.InProgress) ->
  Build.run_unit w (Run.context_of cfg s) (Run.store f) (Run.registry_tags f)
  = (st, tr, Build.Failure at_step) ->
  let f' := Run.step w cfg (Run.Finish i) f in
  Run.status_of f' i = Some (Run.Completed (Build.Failure at_step)) /\
  (forall j, j <> i ->
     Run.status_of f j = Some Run.Queued \/
     Run.status_of f j = Some Run.InProgress ->
     Run.status_of f' j = Some Run.Cancelled) /\
  (forall j r, j <> i ->
     Run.status_of f j = Some (Run.Completed r) ->
     Run.status_of f' j = Some (Run.Completed r)) /\
  Run.registry_tags f' = Run.registry_tags f /\
  (forall es, Run.conclude (Run.run_events w cfg es f') = Run.RunFailure).
Proof.
  intros Hi Hrun f'.
  assert (Run.units f'
          = <[i := (s, Run.Completed (Build.Failure at_step))]>
              (map Run.cancel_pending (Run.units f))
          /\ Run.registry_tags f' = Build.hub st) as [Hu Hh].
  { unfold f', Run.step. rewrite Hi, Hrun. split; reflexivity. }
  assert (i < length (map Run.cancel_pending (Run.units f))) as Hlen.
  { rewrite length_map. eapply lookup_lt_Some. exact Hi. }
  assert (Run.units f' !! i
          = Some (s, Run.Completed (Build.Failure at_step))) as Hfi.
  { rewrite Hu. now apply list_lookup_insert_eq. }
  assert (forall j, j <> i ->
            Run.units f' !! j = Run.cancel_pending <$> (Run.units f !! j))
    as Hother.
  { intros j Hj. rewrite Hu, list_lookup_insert_ne by congruence.
    apply lookup_map_units. }
  split; [unfold Run.status_of; now rewrite Hfi |]. split.
  { intros j Hj H. unfold Run.status_of in *. rewrite (Hother j Hj).
    destruct (Run.units f !! j) as [[sj [| |r|]]|]; simpl in *;
      destruct H as [H | H]; try discriminate; reflexivity. }
  split.
  { intros j r Hj H. unfold Run.status_of in *. rewrite (Hother j Hj).
    destruct (Run.units f !! j) as [[sj [| |r'|]]|]; simpl in *;
      try discriminate; exact H. }
  split.
  { rewrite Hh. now destruct (run_unit_failure_keeps _ _ _ _ _ _ _ Hrun). }
  intros es. eapply conclude_failure. apply events_keep_completed. exact Hfi.
Qed.

Lemma failure_cancels_pending_siblings_witness :
  let f := Run.run_events Scenario.w_cart_missing Scenario.cfg
             [Run.Start 0; Run.Start 1]
             (Run.init ["src/cartservice"; "src/paymentservice"] [] ∅) in
  let f' := Run.step Scenario.w_cart_missing Scenario.cfg (Run.Finish 0) f in
  Run.status_of f' 0
  = Some (Run.Completed (Build.Failure Build.BuildAndPush)) /\
  (forall j, j <> 0 ->
     Run.status_of f j = Some Run.Queued \/
     Run.status_of f j = Some Run.InProgress ->
     Run.status_of f' j = Some Run.Cancelled) /\
  (forall j r, j <> 0 ->
     Run.status_of f j = Some (Run.Completed r) ->
     Run.status_of f' j = Some (Run.Completed r)) /\
  Run.registry_tags f' = Run.registry_tags f /\
  (forall es,
     Run.conclude (Run.run_events Scenario.w_cart_missing Scenario.cfg es f')
     = Run.RunFailure).
Proof.
  apply (failure_cancels_pending_siblings Scenario.w_cart_missing Scenario.cfg
           (Run.run_events Scenario.w_cart_missing Scenario.cfg
              [Run.Start 0; Run.Start 1]
              (Run.init ["src/cartservice"; "src/paymentservice"] [] ∅))
           0 "src/cartservice"
           (Build.run_unit Scenario.w_cart_missing
              (Run.context_of Scenario.cfg "src/cartservice") [] ∅).1.1
           Build.steps Build.BuildAndPush); reflexivity.
Defined.

(** ** A missing descriptor in the matrix *)

(** What the end of a failing unit does to the statuses of the matrix. *)
Lemma finish_failure_statuses (w : Build.world) (cfg : Run.settings)
    (f : Run.fan) (i : nat) (s : string) (st : Build.state)
    (tr : list Build.step_id) (a : Build.step_id) :
  Run.units f !! i = Some (s, Run.InProgress) ->
  Build.run_unit w (Run.context_of cfg s) (Run.store f) (Run.registry_tags f)
  = (st, tr, Build.Failure a) ->
  Run.status_of (Run.step w cfg (Run.Finish i) f) i
  = Some (Run.Completed (Build.Failure a)) /\
  (forall j, j <> i ->
     Run.status_of f j = Some Run.Queued \/
     Run.status_of f j = Some Run.InProgress ->
     Run.status_of (Run.step w cfg (Run.Finish i) f) j = Some Run.Cancelled) /\
  (forall j r, j <> i ->
     Run.status_of f j = Some (Run.Completed r) ->
     Run.status_of (Run.step w cfg (Run.Finish i) f) j
     = Some (Run.Completed r)).
Proof.
  intros Hi Hrun.
  assert (Run.units (Run.step w cfg (Run.Finish i) f)
          = <[i := (s, Run.Completed (Build.Failure a))]>
              (map Run.cancel_pending (Run.units f))) as Hu.
  { unfold Run.step. rewrite Hi, Hrun. reflexivity. }
  unfold Run.status_of. rewrite Hu. split; [| split].
  - rewrite list_lookup_insert_eq; [reflexivity |].
    rewrite length_map. eapply lookup_lt_Some. exact Hi.
  - intros j Hj H.
    rewrite list_lookup_insert_ne, lookup_map_units by congruence.
    destruct (Run.units f !! j) as [[sj [| |r|]]|]; simpl in *;
      destruct H as [H | H]; try discriminate; reflexivity.
  - intros j r Hj H.
    rewrite list_lookup_insert_ne, lookup_map_units by congruence.
    destruct (Run.units f !! j) as [[sj [| |r'|]]|]; simpl in *;
      try discriminate; exact H.
Qed.

(** C3, as stated, fails in its last clause: [src/cartservice] has a
    descriptor at neither location, its script exits with status 1, and
    the failure does not stay with that service: the unit of
    [src/paymentservice], still queued, is cancelled, never runs although
    its descriptor exists, and no image of it reaches the registry. *)
Lemma missing_descriptor_cancels_queued_sibling :
  let c := Run.context_of Scenario.cfg "src/cartservice" in
  let f := Run.run Scenario.w_cart_missing Scenario.cfg Scenario.changed_two
                   [] ∅ [Run.Start 0; Run.Finish 0; Run.Start 1; Run.Finish 1] in
  Build.descriptor_of (Build.build_script Scenario.w_cart_missing c) = None /\
  Build.descriptor_of
    (Build.build_script Scenario.w_cart_missing
       (Run.context_of Scenario.cfg "src/paymentservice"))
  = Some {| Spec.dockerfile_path := "src/paymentservice/Dockerfile";
            Spec.context_path := "src/paymentservice" |} /\
  Run.units <$> f
  = Some [("src/cartservice", Run.Completed (Build.Failure Build.BuildAndPush));
          ("src/paymentservice", Run.Cancelled)] /\
  (f ≫= fun f => Run.registry_tags f !! "kodenops/paymentservice:latest")
  = None.
Proof. vm_compute. repeat split. Qed.

(** C3, amended. The script settles on [<service>/Dockerfile] with
    context [<service>] when that file exists (also when the nested one
    exists too), else on [<service>/src/Dockerfile] with context
    [<service>/src] when that one exists; the script's outcome is decided
    by these two locations of the unit's own service.  When neither
    exists the script exits with status 1 and the logged-in unit fails at
    its build step, leaving the registry as it was; the failure is not
    confined to that service: when the unit ends, every sibling still
    queued or in progress is cancelled, and only the siblings that had
    completed keep their result. *)
Theorem descriptor_resolution_fail_fast (w : Build.world)
    (cfg : Run.settings) (s : string) :
  let c := Run.context_of cfg s in
  let root := {| Spec.dockerfile_path := s +:+ "/Dockerfile";
                 Spec.context_path := s |} in
  let nested := {| Spec.dockerfile_path := s +:+ "/src/Dockerfile";
                   Spec.context_path := s +:+ "/src" |} in
  Build.descriptor_of (Build.build_script w c)
  = Spec.resolve (Build.is_file w) s /\
  Build.descriptor_of (Build.build_script w c)
  = (if Build.is_file w (s +:+ "/Dockerfile") then Some root
     else if Build.is_file w (s +:+ "/src/Dockerfile") then Some nested
     else None) /\
  (forall w',
     Build.is_file w' (s +:+ "/Dockerfile")
     = Build.is_file w (s +:+ "/Dockerfile") ->
     Build.is_file w' (s +:+ "/src/Dockerfile")
     = Build.is_file w (s +:+ "/src/Dockerfile") ->
     Build.build_script w' c = Build.build_script w c) /\
  (Build.is_file w (s +:+ "/Dockerfile") = false ->
   Build.is_file w (s +:+ "/src/Dockerfile") = false ->
   Build.login_ok w c = true ->
   (exists message, Build.build_script w c = Build.Exit1 message) /\
   (forall store h,
      exists st,
        Build.run_unit w c store h
        = (st, Build.steps, Build.Failure Build.BuildAndPush) /\
        Build.hub st = h) /\
   (forall f i,
      Run.units f !! i = Some (s, Run.InProgress) ->
      Run.status_of (Run.step w cfg (Run.Finish i) f) i
      = Some (Run.Completed (Build.Failure Build.BuildAndPush)) /\
      (forall j, j <> i ->
         Run.status_of f j = Some Run.Queued \/
         Run.status_of f j = Some Run.InProgress ->
         Run.status_of (Run.step w cfg (Run.Finish i) f) j
         = Some Run.Cancelled) /\
      (forall j r, j <> i ->
         Run.status_of f j = Some (Run.Completed r) ->
         Run.status_of (Run.step w cfg (Run.Finish i) f) j
         = Some (Run.Completed r)))).
Proof.
  intros c root nested.
  destruct (descriptor_resolution w c) as [H1 [H2 [H3 H4]]].
  split; [exact H1 |]. split; [exact H2 |]. split; [exact H4 |].
  intros Hr Hn HL. destruct (H3 Hr Hn) as [Hm Hu].
  split; [exact Hm |]. split; [intros store h; now apply Hu |].
  intros f i Hi.
  destruct (Hu (Run.store f) (Run.registry_tags f) HL) as [st [Hrun _]].
  exact (finish_failure_statuses w cfg f i s st Build.steps
           Build.BuildAndPush Hi Hrun).
Qed.

Lemma descriptor_resolution_fail_fast_witness :
  let w := Scenario.w_cart_missing in
  let cfg := Scenario.cfg in
  let c := Run.context_of cfg "src/cartservice" in
  (exists message, Build.build_script w c = Build.Exit1 message) /\
  (forall store h,
     exists st,
       Build.run_unit w c store h
       = (st, Build.steps, Build.Failure Build.BuildAndPush) /\
       Build.hub st = h) /\
  (forall f i,
     Run.units f !! i = Some ("src/cartservice", Run.InProgress) ->
     Run.status_of (Run.step w cfg (Run.Finish i) f) i
     = Some (Run.Completed (Build.Failure Build.BuildAndPush)) /\
     (forall j, j <> i ->
        Run.status_of f j = Some Run.Queued \/
        Run.status_of f j = Some Run.InProgress ->
        Run.status_of (Run.step w cfg (Run.Finish i) f) j
        = Some Run.Cancelled) /\
     (forall j r, j <> i ->
        Run.status_of f j = Some (Run.Completed r) ->
        Run.status_of (Run.step w cfg (Run.Finish i) f) j
        = Some (Run.Completed r))).
Proof.
  apply (proj2 (proj2 (proj2
           (descriptor_resolution_fail_fast Scenario.w_cart_missing
              Scenario.cfg "src/cartservice"))));
    reflexivity.
Defined.

Lemma release_only_builds_nothing_witness :
  let changed := "release/kubernetes-manifests.yaml" in
  Trigger.push_triggers (Detect.changed_paths changed) = true /\
  In "release/**" Workflow.push_paths /\
  Detect.services changed = [] /\
  Detect.set_matrix changed = Workflow.empty_matrix /\
  Run.spawn (Detect.set_matrix changed) = Some [] /\
  forall w cfg store0 hub0 schedule,
    exists f,
      Run.run w cfg changed store0 hub0 schedule = Some f /\
      Run.units f = [] /\ Run.registry_tags f = hub0.
Proof.
  apply (release_only_builds_nothing "release/kubernetes-manifests.yaml").
  intros p Hp. simpl in Hp. destruct Hp as [<- | []]. reflexivity.
Defined.

(** * Further properties of the workflow *)

(** ** The matrix and the trigger *)

Section MoreMatrixFacts.

Lemma registry_nodup : List.NoDup Workflow.registry.
Proof. apply NoDup_ListNoDup, (bool_decide_unpack _). vm_compute. exact I. Qed.

Lemma filter_length_bound {A} (f : A -> bool) (l : list A) :
  length (List.filter f l) <= length l.
Proof.
  induction l as [|x l IH]; simpl; [lia |].
  destruct (f x); simpl; lia.
Qed.

Lemma glob_lex_lit (x : ascii) (r : string) :
  Ascii.eqb x "*" = false ->
  Trigger.glob_lex (String x r) = Trigger.GLit x :: Trigger.glob_lex r.
Proof.
  intros H. destruct x as [[] [] [] [] [] [] [] []];
    try discriminate H; reflexivity.
Qed.

(** A pattern [dir/**] with no star in [dir] matches exactly the paths
    that start with [dir/]. *)
Lemma glob_dir (d p : string) :
  Sh.all_chars (fun c => negb (Ascii.eqb c "*")) d = true ->
  Trigger.path_matches (d +:+ "/**") p = Sh.starts_with (d +:+ "/") p.
Proof.
  unfold Trigger.path_matches.
  revert p; induction d as [|x d IH]; intros p Hd.
  - destruct p as [|c r]; [reflexivity |].
    change (Ascii.eqb "/" c && Trigger.glob_match [Trigger.GStarStar] r
            = Ascii.eqb "/" c && Sh.starts_with "" r).
    rewrite any_suffix. now destruct r.
  - simpl in Hd. apply andb_prop in Hd as [Hx Hd].
    apply negb_true_iff in Hx.
    rewrite !append_cons, (glob_lex_lit _ _ Hx).
    destruct p as [|c r]; [reflexivity |].
    simpl. now rewrite (IH r Hd).
Qed.

Lemma push_paths_dirs :
  Workflow.push_paths
  = map (fun d => d +:+ "/**") (Workflow.registry ++ ["release"]).
Proof. reflexivity. Qed.

Lemma watched_dirs_star_free :
  forallb (Sh.all_chars (fun c => negb (Ascii.eqb c "*")))
          (Workflow.registry ++ ["release"]) = true.
Proof. reflexivity. Qed.

End MoreMatrixFacts.

Lemma job_condition_iff (changed : string) :
  Run.build_and_push_if (Detect.set_matrix changed) = true
  <-> exists e p,
        In e Workflow.registry /\
        In p (Detect.changed_paths changed) /\
        Sh.starts_with (e +:+ "/") p = true.
Proof.
  unfold Detect.set_matrix. rewrite services_filter.
  destruct (Spec.build_matrix Workflow.registry (Detect.changed_paths changed))
    as [|d ds] eqn:E.
  - split; [discriminate |]. intros [e [p [He [Hp Hs]]]].
    rewrite build_matrix_nil in E. specialize (E e He).
    unfold Spec.matched in E.
    assert (existsb (Sh.starts_with (e +:+ "/"))
                    (Detect.changed_paths changed) = true) as Ht
      by (apply existsb_exists; eauto).
    congruence.
  - change (map Detect.service_json (d :: ds))
      with (Detect.service_json d :: map Detect.service_json ds).
    rewrite if_matrix_of_cons. split; [intros _ | reflexivity].
    assert (In d (Spec.build_matrix Workflow.registry
                    (Detect.changed_paths changed))) as Hd
      by (rewrite E; now left).
    apply build_matrix_in in Hd as [Hr Hm].
    unfold Spec.matched in Hm. apply existsb_exists in Hm as [p [Hp Hs]].
    eauto.
Qed.

(** X1. The job [build-and-push] runs (its condition is true) exactly when
    some changed path lies under some directory of the registry. *)
Theorem build_job_runs_iff (changed : string) :
  Run.build_and_push_if (Detect.set_matrix changed) = true
  <-> exists e p,
        In e Workflow.registry /\
        In p (Detect.changed_paths changed) /\
        Sh.starts_with (e +:+ "/") p = true.
Proof. apply job_condition_iff. Qed.

(** X2. The matrix grows with the diff: when every changed path of one
    diff is also a changed path of another, every unit of the first
    matrix is a unit of the second. *)
Theorem matrix_monotone (c1 c2 : string) :
  incl (Detect.changed_paths c1) (Detect.changed_paths c2) ->
  exists m1 m2,
    Run.spawn (Detect.set_matrix c1) = Some m1 /\
    Run.spawn (Detect.set_matrix c2) = Some m2 /\
    incl m1 m2.
Proof.
  intros H. do 2 eexists. rewrite !spawn_set_matrix.
  split; [reflexivity |]. split; [reflexivity |].
  intros e He. apply build_matrix_in in He as [Hr Hm].
  apply build_matrix_in. split; [exact Hr |].
  unfold Spec.matched in *. apply existsb_exists in Hm as [p [Hp Hs]].
  apply existsb_exists. exists p. split; [now apply H | exact Hs].
Qed.

Lemma matrix_monotone_witness :
  exists m1 m2,
    Run.spawn (Detect.set_matrix "src/adservice/build.gradle") = Some m1 /\
    Run.spawn (Detect.set_matrix
                 (Sh.unlines ["src/emailservice/email_server.py";
                              "src/adservice/build.gradle"])) = Some m2 /\
    incl m1 m2.
Proof.
  apply (matrix_monotone "src/adservice/build.gradle"
           (Sh.unlines ["src/emailservice/email_server.py";
                        "src/adservice/build.gradle"])).
  intros p Hp. simpl in Hp. destruct Hp as [<- | []].
  right. left. reflexivity.
Defined.

(** X3. Whatever changed, no service gets two units: the matrix has no
    duplicate, holds registry entries only and has at most as many units
    as the registry has entries, and the array [services] has one element
    per unit. *)
Theorem matrix_no_duplicates (changed : string) :
  exists m,
    Run.spawn (Detect.set_matrix changed) = Some m /\
    List.NoDup m /\
    incl m Workflow.registry /\
    length m <= length Workflow.registry /\
    length (Detect.services changed) = length m.
Proof.
  eexists. split; [apply spawn_set_matrix |].
  unfold Spec.build_matrix. split.
  - apply List.NoDup_filter, registry_nodup.
  - split; [apply List.incl_filter |]. split; [apply filter_length_bound |].
    rewrite services_filter. unfold Spec.build_matrix. apply length_map.
Qed.

(** X4. The matrix text is read back as it was written: for directory
    names without quote or backslash, [fromJson] of the text built from
    the array gives the names in order, and the job expands to exactly
    these units. *)
Theorem matrix_text_round_trip (dirs : list string) :
  forallb Json.plain dirs = true ->
  Json.from_json (Detect.matrix_of (map Detect.service_json dirs))
  = Some dirs /\
  Run.spawn (Detect.matrix_of (map Detect.service_json dirs)) = Some dirs.
Proof.
  intros H. split; [now apply from_json_matrix_of |].
  unfold Run.spawn. destruct dirs as [|d ds].
  - reflexivity.
  - change (map Detect.service_json (d :: ds))
      with (Detect.service_json d :: map Detect.service_json ds).
    rewrite if_matrix_of_cons.
    change (Detect.service_json d :: map Detect.service_json ds)
      with (map Detect.service_json (d :: ds)).
    now apply from_json_matrix_of.
Qed.

Lemma matrix_text_round_trip_witness :
  Json.from_json
    (Detect.matrix_of (map Detect.service_json ["services/a b"; "x,y"; "{}"]))
  = Some ["services/a b"; "x,y"; "{}"] /\
  Run.spawn
    (Detect.matrix_of (map Detect.service_json ["services/a b"; "x,y"; "{}"]))
  = Some ["services/a b"; "x,y"; "{}"].
Proof.
  apply (matrix_text_round_trip ["services/a b"; "x,y"; "{}"]). reflexivity.
Defined.

Lemma trigger_pattern_iff (p : string) :
  existsb (fun pat => Trigger.path_matches pat p) Workflow.push_paths = true
  <-> (exists e, In e Workflow.registry /\ Sh.starts_with (e +:+ "/") p = true)
      \/ Sh.starts_with "release/" p = true.
Proof.
  rewrite push_paths_dirs, existsb_exists.
  pose proof watched_dirs_star_free as HF. rewrite forallb_forall in HF.
  split.
  - intros [pat [Hin Hm]]. apply in_map_iff in Hin as [d [<- Hd]].
    rewrite (glob_dir d p (HF d Hd)) in Hm.
    apply in_app_or in Hd as [Hd | [<- | []]]; [left; eauto | now right].
  - intros [[e [He Hs]] | Hs].
    + exists (e +:+ "/**"). split.
      * apply in_map_iff. exists e. split; [reflexivity |].
        apply in_or_app. now left.
      * rewrite glob_dir; [exact Hs |]. apply HF, in_or_app. now left.
    + exists "release/**". split.
      * apply in_map_iff. exists "release". split; [reflexivity |].
        apply in_or_app. right. now left.
      * now apply release_pattern.
Qed.

(** X5. The trigger's patterns and the registry agree: a changed file
    matches some pattern of [on.push.paths] exactly when it lies under a
    directory of the registry or under [release/]. *)
Theorem trigger_agrees_with_registry (p : string) :
  existsb (fun pat => Trigger.path_matches pat p) Workflow.push_paths = true
  <-> (exists e, In e Workflow.registry /\ Sh.starts_with (e +:+ "/") p = true)
      \/ Sh.starts_with "release/" p = true.
Proof. apply trigger_pattern_iff. Qed.

(** ** One unit: results, tags, cache entries *)

Section MoreUnitFacts.

Variable w : Build.world.
Variable c : Build.context.

Lemma cache_save_hub st : Build.hub (Build.cache_save c st) = Build.hub st.
Proof.
  unfold Build.cache_save.
  destruct (Build.cache_exact_hit c (Build.cache_store st)); [reflexivity |].
  now destruct (Build.tmp st !! Workflow.cache_path).
Qed.

(** A unit changes no tag of the registry but its own two. *)
Lemma unit_other_tags store h t :
  t <> Build.latest_tag c -> t <> Build.sha_tag c ->
  Build.hub (Build.run_unit w c store h).1.1 !! t = h !! t.
Proof.
  intros H1 H2. destruct (run_unit_end w c store h); simpl;
    rewrite ?cache_save_hub; simpl; rewrite ?restored_hub; try reflexivity.
  now rewrite !lookup_insert_ne by congruence.
Qed.

Lemma cache_key_restore_key :
  Build.cache_key c = Build.cache_restore_key c +:+ Build.GITHUB_SHA c.
Proof.
  unfold Build.cache_key, Build.cache_restore_key.
  now rewrite !append_assoc.
Qed.

End MoreUnitFacts.

Section SeparatorFacts.

(** Two texts that agree up to and including the first occurrence of a
    separator have the same part before it. *)
Lemma sep_split (ch : ascii) (a b x y : string) :
  Sh.all_chars (fun c => negb (Ascii.eqb c ch)) a = true ->
  Sh.all_chars (fun c => negb (Ascii.eqb c ch)) b = true ->
  a +:+ String ch x = b +:+ String ch y -> a = b.
Proof.
  revert b; induction a as [|p a IH]; intros [|q b] Ha Hb H.
  - reflexivity.
  - rewrite append_nil_l, append_cons in H. injection H as <- _.
    simpl in Hb. now rewrite Ascii.eqb_refl in Hb.
  - rewrite append_nil_l, append_cons in H. injection H as -> _.
    simpl in Ha. now rewrite Ascii.eqb_refl in Ha.
  - rewrite !append_cons in H. injection H as -> H.
    simpl in Ha, Hb. apply andb_prop in Ha as [_ Ha].
    apply andb_prop in Hb as [_ Hb]. f_equal. now apply IH.
Qed.

Lemma nodup_map_inj {A B} (f : A -> B) (l : list A) (x y : A) :
  List.NoDup (map f l) -> In x l -> In y l -> f x = f y -> x = y.
Proof.
  induction l as [|z l IH]; intros Hnd Hx Hy E; [destruct Hx |].
  simpl in Hnd. apply List.NoDup_cons_iff in Hnd as [Hz Hnd].
  destruct Hx as [-> | Hx], Hy as [-> | Hy]; auto.
  - exfalso. apply Hz. rewrite E. now apply in_map.
  - exfalso. apply Hz. rewrite <- E. now apply in_map.
Qed.

Lemma registry_names_nodup : List.NoDup (map Sh.basename Workflow.registry).
Proof. apply NoDup_ListNoDup, (bool_decide_unpack _). vm_compute. exact I. Qed.

Lemma registry_names_no_colon :
  forallb (Sh.all_chars (fun c => negb (Ascii.eqb c ":")))
          (map Sh.basename Workflow.registry) = true.
Proof. reflexivity. Qed.

Lemma registry_no_dash :
  forallb (Sh.all_chars (fun c => negb (Ascii.eqb c "-")))
          Workflow.registry = true.
Proof. reflexivity. Qed.

(** The image references of two contexts with the same namespace: each
    is the namespace, a slash, the name, a colon and a tag. *)
Lemma tag_shape (c : Build.context) (t : string) :
  In t [Build.latest_tag c; Build.sha_tag c] ->
  exists x,
    t = Build.DOCKER_USERNAME c +:+ "/"
          +:+ Sh.basename (Build.SERVICE c) +:+ String ":" x.
Proof.
  intros [<- | [<- | []]].
  - exists "latest". reflexivity.
  - exists (Sh.take_chars 7 (Build.GITHUB_SHA c)). reflexivity.
Qed.

Lemma tags_differ (c1 c2 : Build.context) (t1 t2 : string) :
  In (Build.SERVICE c1) Workflow.registry ->
  In (Build.SERVICE c2) Workflow.registry ->
  Build.SERVICE c1 <> Build.SERVICE c2 ->
  Build.DOCKER_USERNAME c1 = Build.DOCKER_USERNAME c2 ->
  In t1 [Build.latest_tag c1; Build.sha_tag c1] ->
  In t2 [Build.latest_tag c2; Build.sha_tag c2] ->
  t1 <> t2.
Proof.
  intros H1 H2 Hne Hu Ht1 Ht2 E.
  apply tag_shape in Ht1 as [x1 ->]. apply tag_shape in Ht2 as [x2 ->].
  rewrite Hu in E. do 2 apply append_prefix_cancel in E.
  pose proof registry_names_no_colon as HC. rewrite forallb_forall in HC.
  apply sep_split in E.
  - apply Hne. eapply (nodup_map_inj Sh.basename); eauto.
    apply registry_names_nodup.
  - apply HC. now apply in_map.
  - apply HC. now apply in_map.
Qed.

End SeparatorFacts.

(** X6. A unit ends with success exactly when its login is accepted, a
    descriptor is found at one of the two locations and the engine builds
    the image. *)
Theorem unit_succeeds_iff (w : Build.world) (c : Build.context)
    (store : list (string * Build.blob)) (h : gmap string Build.digest) :
  (Build.run_unit w c store h).2 = Build.Success
  <-> Build.login_ok w c = true /\
      exists d image exported,
        Spec.resolve (Build.is_file w) (Build.SERVICE c) = Some d /\
        Build.engine w (Spec.dockerfile_path d) (Spec.context_path d)
                     (Build.imported c store)
        = Build.Built image exported.
Proof.
  split.
  - destruct (run_unit_end w c store h); simpl; try discriminate.
    intros _. eauto 6.
  - intros [HL [d [image [exported [Hr He]]]]].
    now rewrite (run_unit_built w c store h d image exported HL Hr He).
Qed.

(** X8. Whatever its result, a unit changes no image reference of the
    registry other than its own two tags. *)
Theorem unit_touches_only_its_tags (w : Build.world) (c : Build.context)
    (store : list (string * Build.blob)) (h : gmap string Build.digest)
    (t : string) :
  t <> Build.latest_tag c -> t <> Build.sha_tag c ->
  Build.hub (Build.run_unit w c store h).1.1 !! t = h !! t.
Proof. apply unit_other_tags. Qed.

Lemma unit_touches_only_its_tags_witness :
  Build.hub (Build.run_unit Scenario.w_root Scenario.next []
                            Scenario.hub_before).1.1
    !! "kodenops/frontend:0123456"
  = Scenario.hub_before !! "kodenops/frontend:0123456".
Proof.
  apply (unit_touches_only_its_tags Scenario.w_root Scenario.next []
           Scenario.hub_before "kodenops/frontend:0123456");
    discriminate.
Defined.

(** X9. Units of two different services of the registry, pushing under
    the same namespace, never write the same image reference: whatever
    the unit of one service does, both tags of the other service point
    where they pointed before. *)
Theorem units_keep_each_others_tags (w : Build.world)
    (c1 c2 : Build.context)
    (store : list (string * Build.blob)) (h : gmap string Build.digest) :
  In (Build.SERVICE c1) Workflow.registry ->
  In (Build.SERVICE c2) Workflow.registry ->
  Build.SERVICE c1 <> Build.SERVICE c2 ->
  Build.DOCKER_USERNAME c1 = Build.DOCKER_USERNAME c2 ->
  let h' := Build.hub (Build.run_unit w c2 store h).1.1 in
  h' !! Build.latest_tag c1 = h !! Build.latest_tag c1 /\
  h' !! Build.sha_tag c1 = h !! Build.sha_tag c1.
Proof.
  intros H1 H2 Hne Hu h'. unfold h'.
  split; apply unit_other_tags;
    apply (tags_differ c1 c2); auto; simpl; auto.
Qed.

Lemma units_keep_each_others_tags_witness :
  let c1 := Scenario.frontend in
  let c2 := Run.context_of Scenario.cfg "src/paymentservice" in
  let h' := Build.hub (Build.run_unit Scenario.w_cart_missing c2 []
                                      Scenario.hub_before).1.1 in
  h' !! Build.latest_tag c1 = Scenario.hub_before !! Build.latest_tag c1 /\
  h' !! Build.sha_tag c1 = Scenario.hub_before !! Build.sha_tag c1.
Proof.
  apply (units_keep_each_others_tags Scenario.w_cart_missing
           Scenario.frontend
           (Run.context_of Scenario.cfg "src/paymentservice")
           [] Scenario.hub_before).
  - simpl. tauto.
  - simpl. tauto.
  - discriminate.
  - reflexivity.
Defined.

Lemma cache_restore_choice_aux (c : Build.context)
    (store : list (string * Build.blob)) :
  (forall k b,
     Build.cache_lookup c store = Some (k, b) ->
     In (k, b) store /\ Sh.starts_with (Build.cache_restore_key c) k = true) /\
  (Build.cache_exact_hit c store = true ->
   exists b, Build.cache_lookup c store = Some (Build.cache_key c, b)) /\
  (Build.cache_lookup c store = None
   <-> forall k b, In (k, b) store ->
                   Sh.starts_with (Build.cache_restore_key c) k = false).
Proof.
  assert (Sh.starts_with (Build.cache_restore_key c) (Build.cache_key c)
          = true) as Hpre
    by (rewrite cache_key_restore_key; apply starts_with_app).
  unfold Build.cache_lookup, Build.cache_exact_hit.
  split; [| split].
  - intros k b H.
    destruct (find (fun e => String.eqb (fst e) (Build.cache_key c)) store)
      as [e|] eqn:E.
    + injection H as ->. apply find_some in E as [Hin Hk].
      apply String.eqb_eq in Hk. simpl in Hk. subst k. auto.
    + apply find_some in H as [Hin Hk]. auto.
  - intros H. apply existsb_exists in H as [[k b] [Hin Hk]].
    destruct (find (fun e => String.eqb (fst e) (Build.cache_key c)) store)
      as [[k' b']|] eqn:E.
    + apply find_some in E as [_ Hk']. apply String.eqb_eq in Hk'.
      simpl in Hk'. subst k'. eauto.
    + pose proof (find_none _ _ E _ Hin) as Hn. simpl in *. congruence.
  - destruct (find (fun e => String.eqb (fst e) (Build.cache_key c)) store)
      as [[k' b']|] eqn:E.
    + split; [discriminate |]. intros H.
      apply find_some in E as [Hin Hk]. apply String.eqb_eq in Hk.
      simpl in Hk. subst k'. rewrite (H _ _ Hin) in Hpre. discriminate.
    + split.
      * intros H k b Hin. apply (find_none _ _ H (k, b) Hin).
      * intros H.
        destruct (find (fun e => Sh.starts_with (Build.cache_restore_key c)
                                                (fst e)) store)
          as [[k b]|] eqn:E2; [| reflexivity].
        apply find_some in E2 as [Hin Hk]. cbn [fst] in Hk.
        rewrite (H _ _ Hin) in Hk. discriminate.
Qed.

(** X12. The cache keys keep the services of the registry apart: an entry
    stored under the key of one service is never restored by a unit of
    another. *)
Theorem cache_restore_stays_in_service (c1 c2 : Build.context)
    (store : list (string * Build.blob)) (b : Build.blob) :
  In (Build.SERVICE c1) Workflow.registry ->
  In (Build.SERVICE c2) Workflow.registry ->
  Build.cache_lookup c1 store = Some (Build.cache_key c2, b) ->
  Build.SERVICE c1 = Build.SERVICE c2.
Proof.
  intros H1 H2 HL.
  apply (proj1 (cache_restore_choice_aux c1 store)) in HL as [_ Hp].
  apply starts_with_inv in Hp as [r Hr].
  unfold Build.cache_key, Build.cache_restore_key in Hr.
  rewrite !append_assoc in Hr. do 2 apply append_prefix_cancel in Hr.
  pose proof registry_no_dash as HD. rewrite forallb_forall in HD.
  symmetry. eapply (sep_split "-"); [apply HD, H2 | apply HD, H1 |].
  exact Hr.
Qed.

Lemma cache_restore_stays_in_service_witness :
  Build.SERVICE Scenario.next = Build.SERVICE Scenario.frontend.
Proof.
  apply (cache_restore_stays_in_service Scenario.next Scenario.frontend
           [(Build.cache_key Scenario.frontend, "layers")] "layers").
  - simpl. tauto.
  - simpl. tauto.
  - reflexivity.
Defined.

Example frontend_starts :
  match Frontend.main Frontend.w_ready with
  | Frontend.Ok l p => Some (l, Frontend.dialled p)
  | Frontend.Panic _ _ => None
  end
  = Some ("0.0.0.0:9090",
          ["currencyservice:7000"; "productcatalogservice:3550";
           "cartservice:7070"; "recommendationservice:8080";
           "shippingservice:50051"; "checkoutservice:5050";
           "adservice:9555"]).
Proof. vm_compute. reflexivity. Qed.

(** ** The frontend's start-up *)

Section FrontendFacts.

Variable w : Frontend.world.

Lemma step_env_ok (f : Frontend.addr_field) (k : string) {B}
    (b : Frontend.proc -> Frontend.outcome B) (p : Frontend.proc) :
  String.eqb (Frontend.getenv w k) "" = false ->
  Frontend.and_then (Frontend.mustMapEnv w f k) b p
  = b {| Frontend.svc := Frontend.set_addr f (Frontend.getenv w k)
                           (Frontend.svc p);
         Frontend.dialled := Frontend.dialled p |}.
Proof.
  intros H. unfold Frontend.and_then, Frontend.mustMapEnv. now rewrite H.
Qed.

Lemma step_env_panic (f : Frontend.addr_field) (k : string) {B}
    (b : Frontend.proc -> Frontend.outcome B) (p : Frontend.proc) :
  String.eqb (Frontend.getenv w k) "" = true ->
  Frontend.and_then (Frontend.mustMapEnv w f k) b p
  = Frontend.Panic
      ("environment variable " +:+ Frontend.quoted k +:+ " not set") p.
Proof.
  intros H. unfold Frontend.and_then, Frontend.mustMapEnv. now rewrite H.
Qed.

Lemma step_dial_ok (c : Frontend.conn_field)
    (addr : Frontend.frontendServer -> string) (a : string) {B}
    (b : Frontend.proc -> Frontend.outcome B) (p : Frontend.proc) :
  addr (Frontend.svc p) = a ->
  Frontend.dial_error w a = None ->
  Frontend.and_then (Frontend.mustConnGRPC w c addr) b p
  = b {| Frontend.svc := Frontend.set_conn c (Some a) (Frontend.svc p);
         Frontend.dialled := Frontend.dialled p ++ [a] |}.
Proof.
  intros <- H. unfold Frontend.and_then, Frontend.mustConnGRPC.
  now rewrite H.
Qed.

Lemma step_dial_panic (c : Frontend.conn_field)
    (addr : Frontend.frontendServer -> string) (a err : string) {B}
    (b : Frontend.proc -> Frontend.outcome B) (p : Frontend.proc) :
  addr (Frontend.svc p) = a ->
  Frontend.dial_error w a = Some err ->
  Frontend.and_then (Frontend.mustConnGRPC w c addr) b p
  = Frontend.Panic ("grpc: failed to connect " +:+ a +:+ ": " +:+ err)
      {| Frontend.svc := Frontend.set_conn c None (Frontend.svc p);
         Frontend.dialled := Frontend.dialled p ++ [a] |}.
Proof.
  intros <- H. unfold Frontend.and_then, Frontend.mustConnGRPC.
  now rewrite H.
Qed.

(** The variables are all set: none reads as the empty string. *)
Lemma env_set_all :
  (forall fk, In fk Frontend.required_env ->
              Frontend.getenv w (snd fk) <> "") ->
  Forall (fun fk => String.eqb (Frontend.getenv w (snd fk)) "" = false)
         Frontend.required_env.
Proof.
  intros H. apply Forall_forall. intros fk Hin.
  apply list_elem_of_In in Hin. apply String.eqb_neq. now apply H.
Qed.

(** With the tracer ready and the eight variables set, [main] is its
    second phase on the loaded server. *)
Lemma main_loaded :
  Frontend.tracer_ready w = true ->
  (forall fk, In fk Frontend.required_env ->
              Frontend.getenv w (snd fk) <> "") ->
  Frontend.main w
  = Frontend.connect w (Frontend.listen_address w) (Frontend.loaded w).
Proof.
  intros Ht Henv. apply env_set_all in Henv.
  unfold Frontend.required_env in Henv.
  repeat match goal with
         | H : Forall _ (_ :: _) |- _ =>
             apply Forall_cons_iff in H as [? H]
         end.
  simpl snd in *.
  unfold Frontend.main. rewrite Ht. cbv zeta. simpl negb. cbv iota.
  rewrite !step_env_ok by assumption. reflexivity.
Qed.

End FrontendFacts.

Ltac dial_ok_in w K H :=
  erewrite (step_dial_ok w _ _ (Frontend.getenv w K)) in H
    by first [reflexivity | eassumption].

Ltac dial_case w K H :=
  let e := fresh "err" in
  destruct (Frontend.dial_error w (Frontend.getenv w K)) as [e|] eqn:?;
  [ erewrite (step_dial_panic w _ _ (Frontend.getenv w K) e) in H
      by first [reflexivity | eassumption];
    discriminate H
  | dial_ok_in w K H ].

Ltac env_case w K H :=
  destruct (String.eqb (Frontend.getenv w K) "") eqn:?;
  [ rewrite step_env_panic in H by assumption; discriminate H
  | rewrite step_env_ok in H by assumption ].

(** [main] reaches the listening server exactly when the tracer is
    ready, the eight variables are set and the seven addresses can be
    dialled; the server is then the started one. *)
Lemma main_ok_iff (w : Frontend.world) (l : string) (p : Frontend.proc) :
  Frontend.main w = Frontend.Ok l p
  <-> Frontend.tracer_ready w = true /\
      (forall fk, In fk Frontend.required_env ->
                  Frontend.getenv w (snd fk) <> "") /\
      (forall ck, In ck Frontend.dial_order ->
                  Frontend.dial_error w (Frontend.getenv w (snd ck)) = None) /\
      l = Frontend.listen_address w /\
      p = Frontend.started w.
Proof.
  split.
  - intros H. unfold Frontend.main in H.
    destruct (Frontend.tracer_ready w) eqn:Ht; [| discriminate H].
    cbv zeta in H. simpl negb in H. cbv iota in H.
    env_case w "PRODUCT_CATALOG_SERVICE_ADDR" H.
    env_case w "CURRENCY_SERVICE_ADDR" H.
    env_case w "CART_SERVICE_ADDR" H.
    env_case w "RECOMMENDATION_SERVICE_ADDR" H.
    env_case w "CHECKOUT_SERVICE_ADDR" H.
    env_case w "SHIPPING_SERVICE_ADDR" H.
    env_case w "AD_SERVICE_ADDR" H.
    env_case w "SHOPPING_ASSISTANT_SERVICE_ADDR" H.
    unfold Frontend.connect in H.
    dial_case w "CURRENCY_SERVICE_ADDR" H.
    dial_case w "PRODUCT_CATALOG_SERVICE_ADDR" H.
    dial_case w "CART_SERVICE_ADDR" H.
    dial_case w "RECOMMENDATION_SERVICE_ADDR" H.
    dial_case w "SHIPPING_SERVICE_ADDR" H.
    dial_case w "CHECKOUT_SERVICE_ADDR" H.
    dial_case w "AD_SERVICE_ADDR" H.
    injection H as <- <-.
    split; [reflexivity |]. split.
    { intros fk Hin. apply String.eqb_neq.
      unfold Frontend.required_env in Hin. simpl in Hin.
      repeat (destruct Hin as [<- | Hin]; [assumption |]). destruct Hin. }
    split.
    { intros ck Hin. unfold Frontend.dial_order in Hin. simpl in Hin.
      repeat (destruct Hin as [<- | Hin]; [assumption |]). destruct Hin. }
    split; reflexivity.
  - intros [Ht [Henv [Hd [-> ->]]]].
    rewrite (main_loaded w Ht Henv).
    assert (forall c k, In (c, k) Frontend.dial_order ->
              Frontend.dial_error w (Frontend.getenv w k) = None) as Hd'
      by (intros c k Hin; exact (Hd _ Hin)).
    unfold Frontend.dial_order in Hd'.
    unfold Frontend.connect.
    repeat (erewrite step_dial_ok;
            [ | reflexivity | eapply Hd'; simpl; tauto ]).
    reflexivity.
Qed.

(** X18. When required variables are missing or empty, [main] panics at
    the first of them in the order it reads them, naming it in the
    message, and it has dialled no service and holds no connection. *)
Theorem missing_variable_panics (w : Frontend.world)
    (f : Frontend.addr_field) (k : string) :
  Frontend.tracer_ready w = true ->
  find (fun fk => String.eqb (Frontend.getenv w (snd fk)) "")
       Frontend.required_env = Some (f, k) ->
  exists p,
    Frontend.main w
    = Frontend.Panic
        ("environment variable " +:+ Frontend.quoted k +:+ " not set") p /\
    Frontend.dialled p = [] /\
    forall c, Frontend.conns (Frontend.svc p) c = None.
Proof.
  intros Ht H. unfold Frontend.main. rewrite Ht.
  cbv zeta. simpl negb. cbv iota.
  unfold Frontend.required_env in H. cbn [find snd] in H.
  repeat match type of H with
         | (if ?b then _ else _) = _ =>
             destruct b eqn:?;
             [ injection H as <- <-;
               rewrite ?step_env_ok by assumption;
               rewrite step_env_panic by assumption;
               eexists; split; [reflexivity |]; split; reflexivity
             | ]
         end.
  discriminate H.
Qed.

Lemma missing_variable_panics_witness :
  exists p,
    Frontend.main Frontend.w_no_cart_var
    = Frontend.Panic
        ("environment variable " +:+ Frontend.quoted "CART_SERVICE_ADDR"
           +:+ " not set") p /\
    Frontend.dialled p = [] /\
    forall c, Frontend.conns (Frontend.svc p) c = None.
Proof.
  apply (missing_variable_panics Frontend.w_no_cart_var Frontend.cartSvcAddr
           "CART_SERVICE_ADDR"); reflexivity.
Defined.

(** X19. [main] gets as far as listening exactly when the tracer is
    initialised, each of the eight required variables is set to a
    non-empty value, and each of the seven addresses it dials can be
    dialled. *)
Theorem frontend_starts_iff (w : Frontend.world) :
  (exists l p, Frontend.main w = Frontend.Ok l p)
  <-> Frontend.tracer_ready w = true /\
      (forall fk, In fk Frontend.required_env ->
                  Frontend.getenv w (snd fk) <> "") /\
      (forall ck, In ck Frontend.dial_order ->
                  Frontend.dial_error w (Frontend.getenv w (snd ck)) = None).
Proof.
  split.
  - intros [l [p H]]. apply main_ok_iff in H. tauto.
  - intros [Ht [He Hd]]. do 2 eexists. apply main_ok_iff. eauto.
Qed.

(** X20. A frontend that has started listens on [host:port], where the
    host is [LISTEN_ADDR], or [0.0.0.0] when that variable is unset or
    empty, and the port is [PORT], or [8080] when that one is unset or
    empty; it has dialled the seven services once each, in the order
    currency, product catalogue, cart, recommendation, shipping,
    checkout, ad; every address field holds the value of its variable and
    every dialled connection its address, while the collector's address
    and connection are left at their zero values. *)
Theorem started_frontend (w : Frontend.world) (l : string)
    (p : Frontend.proc) :
  Frontend.main w = Frontend.Ok l p ->
  (exists host srv_port,
     l = host +:+ ":" +:+ srv_port /\
     (Frontend.getenv w "LISTEN_ADDR" = "" -> host = "0.0.0.0") /\
     (Frontend.getenv w "LISTEN_ADDR" <> "" ->
      host = Frontend.getenv w "LISTEN_ADDR") /\
     (Frontend.getenv w "PORT" = "" -> srv_port = "8080") /\
     (Frontend.getenv w "PORT" <> "" ->
      srv_port = Frontend.getenv w "PORT") /\
     host <> "" /\ srv_port <> "") /\
  Frontend.dialled p
  = map (fun ck => Frontend.getenv w (snd ck)) Frontend.dial_order /\
  (forall f k, In (f, k) Frontend.required_env ->
               Frontend.addrs (Frontend.svc p) f = Frontend.getenv w k) /\
  (forall c k, In (c, k) Frontend.dial_order ->
               Frontend.conns (Frontend.svc p) c
               = Some (Frontend.getenv w k)) /\
  Frontend.addrs (Frontend.svc p) Frontend.collectorAddr = "" /\
  Frontend.conns (Frontend.svc p) Frontend.collectorConn = None.
Proof.
  intros H. apply main_ok_iff in H as [_ [_ [_ [-> ->]]]].
  split.
  { unfold Frontend.listen_address, Frontend.port. do 2 eexists.
    split; [reflexivity |].
    destruct (String.eqb_spec (Frontend.getenv w "LISTEN_ADDR") "") as [EA|EA];
      destruct (String.eqb_spec (Frontend.getenv w "PORT") "") as [EP|EP];
      simpl negb; cbv iota;
      repeat split; try assumption; try discriminate;
      intros; congruence. }
  split; [reflexivity |]. split.
  { intros f k Hin. unfold Frontend.required_env in Hin. simpl in Hin.
    repeat (destruct Hin as [E | Hin];
            [injection E as <- <-; reflexivity |]).
    destruct Hin. }
  split.
  { intros c k Hin. unfold Frontend.dial_order in Hin. simpl in Hin.
    repeat (destruct Hin as [E | Hin];
            [injection E as <- <-; reflexivity |]).
    destruct Hin. }
  split; reflexivity.
Qed.

Lemma started_frontend_witness :
  let w := Frontend.w_ready in
  let p := Frontend.started Frontend.w_ready in
  (exists host srv_port,
     "0.0.0.0:9090" = host +:+ ":" +:+ srv_port /\
     (Frontend.getenv w "LISTEN_ADDR" = "" -> host = "0.0.0.0") /\
     (Frontend.getenv w "LISTEN_ADDR" <> "" ->
      host = Frontend.getenv w "LISTEN_ADDR") /\
     (Frontend.getenv w "PORT" = "" -> srv_port = "8080") /\
     (Frontend.getenv w "PORT" <> "" ->
      srv_port = Frontend.getenv w "PORT") /\
     host <> "" /\ srv_port <> "") /\
  Frontend.dialled p
  = map (fun ck => Frontend.getenv w (snd ck)) Frontend.dial_order /\
  (forall f k, In (f, k) Frontend.required_env ->
               Frontend.addrs (Frontend.svc p) f = Frontend.getenv w k) /\
  (forall c k, In (c, k) Frontend.dial_order ->
               Frontend.conns (Frontend.svc p) c
               = Some (Frontend.getenv w k)) /\
  Frontend.addrs (Frontend.svc p) Frontend.collectorAddr = "" /\
  Frontend.conns (Frontend.svc p) Frontend.collectorConn = None.
Proof.
  apply (started_frontend Frontend.w_ready "0.0.0.0:9090"
           (Frontend.started Frontend.w_ready)).
  vm_compute. reflexivity.
Defined.

(** X21. When the variables are set and an address cannot be dialled,
    [main] panics at the first such address in its dial order with the
    message [grpc: failed to connect <address>: <error>]; the services
    before it have been dialled, none after it, and the failed
    connection is nil. *)
Theorem dial_failure_panics (w : Frontend.world) (n : nat)
    (c : Frontend.conn_field) (k err : string) :
  Frontend.tracer_ready w = true ->
  (forall fk, In fk Frontend.required_env ->
              Frontend.getenv w (snd fk) <> "") ->
  Frontend.dial_order !! n = Some (c, k) ->
  Forall (fun ck => Frontend.dial_error w (Frontend.getenv w (snd ck)) = None)
         (firstn n Frontend.dial_order) ->
  Frontend.dial_error w (Frontend.getenv w k) = Some err ->
  exists p,
    Frontend.main w
    = Frontend.Panic
        ("grpc: failed to connect " +:+ Frontend.getenv w k +:+ ": " +:+ err)
        p /\
    Frontend.dialled p
    = map (fun ck => Frontend.getenv w (snd ck))
          (firstn (S n) Frontend.dial_order) /\
    Frontend.conns (Frontend.svc p) c = None.
Proof.
  intros Ht Henv Hn Hprev Herr.
  rewrite (main_loaded w Ht Henv). unfold Frontend.connect.
  unfold Frontend.dial_order in Hn, Hprev.
  destruct n as [|[|[|[|[|[|[|n]]]]]]]; simpl in Hn; try discriminate Hn;
    injection Hn as <- <-; simpl firstn in Hprev;
    repeat match goal with
           | H : Forall _ (_ :: _) |- _ =>
               apply Forall_cons_iff in H as [? H]
           end;
    simpl snd in *;
    repeat (erewrite step_dial_ok by first [reflexivity | eassumption]);
    erewrite step_dial_panic by first [reflexivity | eassumption];
    eexists; (split; [reflexivity |]); split; reflexivity.
Qed.

Lemma dial_failure_panics_witness :
  exists p,
    Frontend.main Frontend.w_cart_down
    = Frontend.Panic
        ("grpc: failed to connect "
           +:+ Frontend.getenv Frontend.w_cart_down "CART_SERVICE_ADDR"
           +:+ ": " +:+ "connection refused") p /\
    Frontend.dialled p
    = map (fun ck => Frontend.getenv Frontend.w_cart_down (snd ck))
          (firstn 3 Frontend.dial_order) /\
    Frontend.conns (Frontend.svc p) Frontend.cartSvcConn = None.
Proof.
  apply (dial_failure_panics Frontend.w_cart_down 2 Frontend.cartSvcConn
           "CART_SERVICE_ADDR" "connection refused").
  - reflexivity.
  - intros fk Hin. unfold Frontend.required_env in Hin. simpl in Hin.
    repeat (destruct Hin as [<- | Hin]; [vm_compute; discriminate |]).
    destruct Hin.
  - reflexivity.
  - repeat constructor.
  - reflexivity.
Defined.

(** ** Cache keys *)

(** X23. The cache key tells services and commits apart: two units of
    services of the registry have the same cache key only when they build
    the same service at the same commit. *)
Theorem cache_key_injective (c1 c2 : Build.context) :
  In (Build.SERVICE c1) Workflow.registry ->
  In (Build.SERVICE c2) Workflow.registry ->
  Build.cache_key c1 = Build.cache_key c2 ->
  Build.SERVICE c1 = Build.SERVICE c2 /\
  Build.GITHUB_SHA c1 = Build.GITHUB_SHA c2.
Proof.
  intros H1 H2 E. unfold Build.cache_key in E.
  do 2 apply append_prefix_cancel in E.
  pose proof registry_no_dash as HD. rewrite forallb_forall in HD.
  assert (Build.SERVICE c1 = Build.SERVICE c2) as Hs
    by (eapply (sep_split "-"); [apply HD, H1 | apply HD, H2 | exact E]).
  split; [exact Hs |]. rewrite Hs in E.
  now do 2 apply append_prefix_cancel in E.
Qed.

Lemma cache_key_injective_witness :
  Build.SERVICE Scenario.frontend
  = Build.SERVICE (Run.context_of Scenario.cfg "src/frontend") /\
  Build.GITHUB_SHA Scenario.frontend
  = Build.GITHUB_SHA (Run.context_of Scenario.cfg "src/frontend").
Proof.
  apply (cache_key_injective Scenario.frontend
           (Run.context_of Scenario.cfg "src/frontend")).
  - simpl. tauto.
  - simpl. tauto.
  - reflexivity.
Defined.

(** ** The job output *)

Section OutputFacts.

Lemma no_newline_append (a b : string) :
  Sh.no_newline (a +:+ b) = Sh.no_newline a && Sh.no_newline b.
Proof.
  induction a as [|x a IH]; [reflexivity |].
  rewrite append_cons. simpl. now rewrite IH, andb_assoc.
Qed.

Lemma no_newline_join (sep : string) (l : list string) :
  Sh.no_newline sep = true ->
  forallb Sh.no_newline l = true ->
  Sh.no_newline (Sh.join sep l) = true.
Proof.
  intros Hs. induction l as [|x l IH]; [reflexivity |].
  intros H. simpl in H. apply andb_prop in H as [Hx Hl].
  destruct l as [|y l]; [exact Hx |].
  rewrite join_cons2, !no_newline_append, Hx, Hs. now apply IH.
Qed.

Lemma no_newline_service_json (d : string) :
  Sh.no_newline d = true -> Sh.no_newline (Detect.service_json d) = true.
Proof.
  intros H. unfold Detect.service_json.
  now rewrite !no_newline_append, H.
Qed.

Lemma registry_no_newline : forallb Sh.no_newline Workflow.registry = true.
Proof. reflexivity. Qed.

Lemma no_newline_set_matrix (changed : string) :
  Sh.no_newline (Detect.set_matrix changed) = true.
Proof.
  unfold Detect.set_matrix. rewrite services_filter.
  pose proof (forallb_filter Sh.no_newline
                (Spec.matched (Detect.changed_paths changed))
                _ registry_no_newline) as HF.
  fold (Spec.build_matrix Workflow.registry (Detect.changed_paths changed))
    in HF.
  destruct (Spec.build_matrix Workflow.registry (Detect.changed_paths changed))
    as [|d ds]; [reflexivity |].
  change (map Detect.service_json (d :: ds))
    with (Detect.service_json d :: map Detect.service_json ds).
  rewrite matrix_of_cons, !no_newline_append.
  change (Detect.service_json d :: map Detect.service_json ds)
    with (map Detect.service_json (d :: ds)).
  rewrite no_newline_join; [reflexivity | reflexivity |].
  rewrite forallb_forall in HF. apply forallb_forall.
  intros x Hx. apply in_map_iff in Hx as [e [<- He]].
  apply no_newline_service_json. now apply HF.
Qed.

End OutputFacts.

(** X26. What the first job writes to its output file is one line, and
    reading that file back gives the single output [services] whose value
    is the matrix text, whatever changed. *)
Theorem output_is_one_line (changed : string) :
  Sh.lines (Output.output_line changed) = [Output.output_line changed] /\
  Output.read_outputs (Output.output_line changed)
  = [("services", Detect.set_matrix changed)].
Proof.
  assert (Sh.lines (Output.output_line changed)
          = [Output.output_line changed]) as HL.
  { apply (lines_from_last (fun r => r)).
    unfold Output.output_line.
    now rewrite no_newline_append, no_newline_set_matrix. }
  split; [exact HL |].
  unfold Output.read_outputs. rewrite HL. reflexivity.
Qed.
